(** * ATTiny relay bypass: the switching logic of [main.c]

    A shallow embedding of the timer interrupt handler
    [ISR(TIMER1_COMPA_vect)] and of the body of the [while (1)] loop of
    [main], followed by the properties of the controller that the
    specification states about them.

    The controller keeps five flags packed in the low bits of the global
    [char state], and four more globals: [brightness_control],
    [brighness_up], [pulse_counter] and [intr_count].  They are modelled as
    integers of [Z] with the width of their C type written out. *)

From Stdlib Require Import ZArith List Bool Lia.
Import ListNotations.
Local Open Scope Z_scope.

(** ** Machine integers of the target (avr-gcc: 8-bit [char], 16-bit [int]) *)

(** The bit pattern kept by an 8-bit object ([char], [PORTB], [OCR0A]). *)
Definition to_char (x : Z) : Z := x mod 256.

(** A 16-bit signed [int] with two's complement wrap-around. *)
Definition to_int (x : Z) : Z := (x + 32768) mod 65536 - 32768.

(** A 16-bit [unsigned short]. *)
Definition to_ushort (x : Z) : Z := x mod 65536.

(** [x |= (1 << k)] on an 8-bit object. *)
Definition set_bit (x k : Z) : Z := to_char (Z.lor x (Z.shiftl 1 k)).

(** [x &= ~(1 << k)] on an 8-bit object. *)
Definition clear_bit (x k : Z) : Z := to_char (Z.land x (Z.lnot (Z.shiftl 1 k))).

(** The truth value of [(x >> k) & 1]. *)
Definition flag (x k : Z) : bool := negb (Z.land (Z.shiftr x k) 1 =? 0).

(** ** Constants of [main.c] *)

Definition MOMENTARY_DELAY : Z := 400.
Definition LATCHING_TIME : Z := 3.

(** Locations of the state flags in the state variable:
    Should Pulse | Switch State | Last State | Pedal On | Timer State. *)
Definition SP : Z := 4.
Definition SS : Z := 3.
Definition LS : Z := 2.
Definition PO : Z := 1.
Definition TS : Z := 0.

(** Bit numbers of port B, as [<avr/io.h>] gives them for the ATtiny85.
    [PB5] is the active low relay, [PB3] the active high relay, [PB4] the
    latching relay, [PB1] the static LED; the blinky LED is the PWM output
    whose duty cycle is [OCR0A]; the switch is read on [PINB2]. *)
Definition PB1 : Z := 1.
Definition PB3 : Z := 3.
Definition PB4 : Z := 4.
Definition PB5 : Z := 5.
Definition PINB2 : Z := 2.

(** ** The globals *)

Record machine : Type := Machine {
  state : Z;               (* char state = 0b00000 *)
  brightness_control : Z;  (* unsigned short int brightness_control = 0 *)
  brighness_up : Z;        (* int brighness_up = 1 *)
  pulse_counter : Z;       (* int pulse_counter = 0 *)
  intr_count : Z           (* int intr_count = 0 *)
}.

Definition startup : machine := Machine 0 0 1 0 0.

Definition upd_state (f : Z -> Z) (m : machine) : machine :=
  Machine (f (state m)) (brightness_control m) (brighness_up m)
          (pulse_counter m) (intr_count m).

Definition put_brightness_control (v : Z) (m : machine) : machine :=
  Machine (state m) v (brighness_up m) (pulse_counter m) (intr_count m).

Definition put_brighness_up (v : Z) (m : machine) : machine :=
  Machine (state m) (brightness_control m) v (pulse_counter m) (intr_count m).

Definition put_pulse_counter (v : Z) (m : machine) : machine :=
  Machine (state m) (brightness_control m) (brighness_up m) v (intr_count m).

Definition put_intr_count (v : Z) (m : machine) : machine :=
  Machine (state m) (brightness_control m) (brighness_up m) (pulse_counter m) v.

(** ** The interrupt handler, block by block *)

(** Lines 60-66: count for the momentary delay. *)
Definition momentary_count (m : machine) : machine :=
  if intr_count m =? MOMENTARY_DELAY
  then put_intr_count 0 (upd_state (fun st => set_bit st TS) m)
  else put_intr_count (to_int (intr_count m + 1)) m.

(** Lines 68-73: set the last state bit equal to the current state. *)
Definition latch_last_state (m : machine) : machine :=
  if flag (state m) SS
  then upd_state (fun st => set_bit st LS) m
  else upd_state (fun st => clear_bit st LS) m.

(** The switch is active low: [(PINB & (1 << PINB2)) == 0]. *)
Definition switch_down (PINB : Z) : bool :=
  Z.land PINB (Z.shiftl 1 PINB2) =? 0.

(** Lines 75-97: run through the FSM.  The write [TCNT0 = 0] restarts the
    hardware PWM counter and touches none of the globals. *)
Definition switch_fsm (PINB : Z) (m : machine) : machine :=
  if switch_down PINB then
    let m := upd_state (fun st => set_bit st SS) m in
    if negb (flag (state m) LS) then
      if negb (flag (state m) PO) then
        let m := put_intr_count 0 m in
        let m := upd_state (fun st => set_bit st PO) m in
        let m := upd_state (fun st => set_bit st SP) m in
        let m := put_brightness_control 0 m in
        upd_state (fun st => clear_bit st TS) m
      else
        let m := upd_state (fun st => clear_bit st PO) m in
        upd_state (fun st => set_bit st SP) m
    else m
  else
    let m := upd_state (fun st => clear_bit st SS) m in
    if flag (state m) LS && flag (state m) PO && flag (state m) TS then
      let m := upd_state (fun st => clear_bit st PO) m in
      upd_state (fun st => set_bit st SP) m
    else m.

(** Lines 99-112: shimmery LED. *)
Definition shimmer (m : machine) : machine :=
  if negb (brighness_up m =? 0) then
    if brightness_control m <? 254
    then put_brightness_control (to_ushort (brightness_control m + 1)) m
    else put_brighness_up 0 m
  else
    if 10 <? brightness_control m
    then put_brightness_control (to_ushort (brightness_control m - 1)) m
    else put_brighness_up 1 m.

(** Lines 114-120: increment the pulse counter until [LATCHING_TIME] has
    elapsed, then reset the counter and the pulse flag. *)
Definition latching_pulse (m : machine) : machine :=
  if flag (state m) SP && (pulse_counter m <? LATCHING_TIME)
  then put_pulse_counter (to_int (pulse_counter m + 1)) m
  else upd_state (fun st => clear_bit st SP) (put_pulse_counter 0 m).

(** [ISR(TIMER1_COMPA_vect)]: one tick, given the value read from [PINB]. *)
Definition TIMER1_COMPA_vect (PINB : Z) (m : machine) : machine :=
  latching_pulse
    (shimmer
       (switch_fsm PINB
          (latch_last_state
             (momentary_count m)))).

(** The state the FSM block of a tick leaves, before the LED and pulse
    blocks run. *)
Definition after_fsm (PINB : Z) (m : machine) : machine :=
  switch_fsm PINB (latch_last_state (momentary_count m)).

(** A run of ticks, one sample of [PINB] each. *)
Definition run (samples : list Z) (m : machine) : machine :=
  fold_left (fun m PINB => TIMER1_COMPA_vect PINB m) samples m.

(** What an observer sees after each tick of a run. *)
Fixpoint trace {A : Type} (obs : machine -> A) (samples : list Z) (m : machine)
  : list A :=
  match samples with
  | [] => []
  | PINB :: rest =>
      let m' := TIMER1_COMPA_vect PINB m in obs m' :: trace obs rest m'
  end.

(** The states the controller can be in between two ticks. *)
Inductive reachable : machine -> Prop :=
| reachable_startup : reachable startup
| reachable_tick : forall PINB m,
    reachable m -> reachable (TIMER1_COMPA_vect PINB m).

(** ** The edges of the switch, as the FSM block tests them *)

(** The sample is pressed and the switch state bit was clear. *)
Definition rising_edge (PINB : Z) (m : machine) : bool :=
  switch_down PINB && negb (flag (state m) SS).

(** The sample is released and the switch state bit was set. *)
Definition falling_edge (PINB : Z) (m : machine) : bool :=
  negb (switch_down PINB) && flag (state m) SS.

(** A rising edge that finds the pedal off (lines 79-85). *)
Definition turn_on_edge (PINB : Z) (m : machine) : bool :=
  rising_edge PINB m && negb (flag (state m) PO).

(** The timer state bit as the FSM block finds it: lines 60-66 have
    already run. *)
Definition timer_state_due (m : machine) : bool :=
  flag (state m) TS || (intr_count m =? MOMENTARY_DELAY).

(** A falling edge that ends a momentary hold (lines 93-96). *)
Definition momentary_release (PINB : Z) (m : machine) : bool :=
  falling_edge PINB m && flag (state m) PO && timer_state_due m.

(** The tick sets the pulse flag in its FSM block. *)
Definition arms (PINB : Z) (m : machine) : bool :=
  rising_edge PINB m || momentary_release PINB m.

(** The number of false-to-true transitions along a sequence of flag
    values that starts from [prev]. *)
Fixpoint rises (prev : bool) (l : list bool) : nat :=
  match l with
  | [] => O
  | b :: rest => ((if negb prev && b then 1 else 0) + rises b rest)%nat
  end.

(** ** The main loop *)

Record ports : Type := Ports {
  PORTB : Z;   (* 8-bit output port *)
  OCR0A : Z    (* 8-bit PWM compare register: brightness of the blinky LED *)
}.

Definition upd_PORTB (f : Z -> Z) (io : ports) : ports :=
  Ports (f (PORTB io)) (OCR0A io).

Definition put_OCR0A (v : Z) (io : ports) : ports :=
  Ports (PORTB io) (to_char v).

(** Lines 149-169: one iteration of [while (1)], reading the globals [m]. *)
Definition main_loop (m : machine) (io : ports) : ports :=
  let io :=
    if flag (state m) PO then
      let io := upd_PORTB (fun p => to_char (Z.lor p (Z.lor (Z.shiftl 1 PB3) (Z.shiftl 1 PB1)))) io in
      let io := upd_PORTB (fun p => clear_bit p PB5) io in
      if flag (state m) SS
      then put_OCR0A (brightness_control m) io
      else put_OCR0A 255 io
    else
      let io := put_OCR0A 0 io in
      let io := upd_PORTB (fun p => clear_bit p PB3) io in
      let io := upd_PORTB (fun p => clear_bit p PB1) io in
      upd_PORTB (fun p => set_bit p PB5) io
  in
  if negb (pulse_counter m =? 0)
  then upd_PORTB (fun p => set_bit p PB4) io
  else upd_PORTB (fun p => clear_bit p PB4) io.

(** The level of a pin of port B. *)
Definition pin (io : ports) (k : Z) : bool := Z.testbit (PORTB io) k.

(** ** What holds between two ticks *)

Definition Inv (m : machine) : Prop :=
  0 <= state m < 32 /\
  0 <= intr_count m <= MOMENTARY_DELAY /\
  0 <= pulse_counter m <= LATCHING_TIME /\
  0 <= brightness_control m <= 254 /\
  (brighness_up m = 0 \/ brighness_up m = 1) /\
  flag (state m) SP = negb (pulse_counter m =? 0).

(** Two sample values of [PINB]: switch closed to ground, and pulled up. *)
Definition pressed : Z := 0.
Definition released : Z := 4.

(** ** Auxiliary definitions for the proofs *)

(** The three tests of the FSM block, on the state the block starts from. *)
Definition fsm_rising (PINB : Z) (m : machine) : bool :=
  switch_down PINB && negb (flag (state m) LS).

Definition fsm_turn_on (PINB : Z) (m : machine) : bool :=
  fsm_rising PINB m && negb (flag (state m) PO).

Definition fsm_release (PINB : Z) (m : machine) : bool :=
  negb (switch_down PINB) &&
  (flag (state m) LS && flag (state m) PO && flag (state m) TS).

Definition flags_in_range (x : Z) : bool :=
  forallb (fun k => (0 <=? set_bit x k) && (set_bit x k <? 32) &&
                    (0 <=? clear_bit x k) && (clear_bit x k <? 32))
          [TS; PO; LS; SS; SP].

(** The samples of a continuous press. *)
Definition all_down (l : list Z) : Prop := Forall (fun p => switch_down p = true) l.

(** The number of ticks a pulse in progress still needs before the pulse
    block clears it. *)
Definition ticks_to_idle (m : machine) : Z :=
  if pulse_counter m =? 0 then 0 else LATCHING_TIME + 1 - pulse_counter m.

(** The ramp state: brightness and direction. *)
Definition led (m : machine) : Z * Z := (brightness_control m, brighness_up m).

(** The LED block as a function of the ramp state alone. *)
Definition ramp (bu : Z * Z) : Z * Z :=
  led (shimmer (Machine 0 (fst bu) (snd bu) 0 0)).

(** No tick of the run is a rising edge that turns the pedal on. *)
Fixpoint no_turn_on (samples : list Z) (m : machine) : bool :=
  match samples with
  | [] => true
  | PINB :: rest =>
      negb (turn_on_edge PINB m) && no_turn_on rest (TIMER1_COMPA_vect PINB m)
  end.

Definition led_eqb (x y : Z * Z) : bool :=
  (fst x =? fst y) && (snd x =? snd y).

Definition ramp_returns (n : nat) (b : Z) : bool :=
  (b <? 10) ||
  (led_eqb (Nat.iter n ramp (b, 0)) (b, 0) &&
   led_eqb (Nat.iter n ramp (b, 1)) (b, 1)).

(** ** The start of [main] and the free-running loop *)

(** Bit number of the switch pin in [PORTB] and [DDRB], from [<avr/io.h>]. *)
Definition PB2 : Z := 2.

(** Lines 142-143 of [main]: [PORTB |= (1<<PB2)] switches the pull-up of the
    input on, [OCR0A = 0] starts the LED off.  The writes to [DDRB] and the
    two timer set-ups touch neither register. *)
Definition main_setup (io : ports) : ports :=
  put_OCR0A 0 (upd_PORTB (fun p => set_bit p PB2) io).

(** The [while (1)] loop over the globals it finds at each iteration. *)
Definition loop (seen : list machine) (io : ports) : ports :=
  fold_left (fun io m => main_loop m io) seen io.

(** ** Bits *)

Lemma flag_testbit (x k : Z) : 0 <= k -> flag x k = Z.testbit x k.
Proof.
  intros Hk. unfold flag.
  change 1 with (Z.ones 1) at 1.
  rewrite Z.land_ones by lia.
  change (2 ^ 1) with 2.
  rewrite <- Z.bit0_mod, Z.shiftr_spec by lia.
  rewrite Z.add_0_l.
  destruct (Z.testbit x k); reflexivity.
Qed.

Lemma testbit_to_char (x j : Z) :
  j < 8 -> Z.testbit (to_char x) j = Z.testbit x j.
Proof.
  intros Hj. unfold to_char. change 256 with (2 ^ 8).
  apply Z.mod_pow2_bits_low; lia.
Qed.

Lemma testbit_one_shifted (k j : Z) :
  0 <= k -> 0 <= j -> Z.testbit (Z.shiftl 1 k) j = (j =? k).
Proof.
  intros Hk Hj. rewrite Z.shiftl_1_l, Z.pow2_bits_eqb by lia.
  apply Z.eqb_sym.
Qed.

Lemma testbit_set_bit (x k j : Z) :
  0 <= k -> 0 <= j < 8 ->
  Z.testbit (set_bit x k) j = (j =? k) || Z.testbit x j.
Proof.
  intros Hk Hj. unfold set_bit.
  rewrite testbit_to_char, Z.lor_spec, testbit_one_shifted by lia.
  apply orb_comm.
Qed.

Lemma testbit_clear_bit (x k j : Z) :
  0 <= k -> 0 <= j < 8 ->
  Z.testbit (clear_bit x k) j = negb (j =? k) && Z.testbit x j.
Proof.
  intros Hk Hj. unfold clear_bit.
  rewrite testbit_to_char, Z.land_spec, Z.lnot_spec, testbit_one_shifted by lia.
  apply andb_comm.
Qed.

Lemma flag_set_bit (x k j : Z) :
  0 <= k -> 0 <= j < 8 -> flag (set_bit x k) j = (j =? k) || flag x j.
Proof.
  intros Hk Hj. rewrite !flag_testbit by lia. now apply testbit_set_bit.
Qed.

Lemma flag_clear_bit (x k j : Z) :
  0 <= k -> 0 <= j < 8 -> flag (clear_bit x k) j = negb (j =? k) && flag x j.
Proof.
  intros Hk Hj. rewrite !flag_testbit by lia. now apply testbit_clear_bit.
Qed.

(** ** One tick, flag by flag *)

Ltac flag_position := unfold SP, SS, LS, PO, TS, PB1, PB3, PB4, PB5; lia.

(** Push the flag tests through the bit updates and decide the tests between
    two bit positions. *)
Ltac flags :=
  cbn [state brightness_control brighness_up pulse_counter intr_count
       upd_state put_brightness_control put_brighness_up put_pulse_counter
       put_intr_count];
  repeat first
    [ rewrite flag_set_bit by flag_position
    | rewrite flag_clear_bit by flag_position ];
  repeat match goal with
    | |- context [?a =? ?b] =>
        let v := eval cbv in (a =? b) in
        match v with
        | true => change (a =? b) with true
        | false => change (a =? b) with false
        end
    end;
  cbn [orb andb negb].

Ltac use_known :=
  repeat match goal with
    | H : ?t = true |- context [?t] => rewrite H
    | H : ?t = false |- context [?t] => rewrite H
    end.

Ltac split_atom c :=
  match c with
  | context [flag ?x ?k] => is_var x; destruct (flag x k) eqn:?
  | context [switch_down ?p] => is_var p; destruct (switch_down p) eqn:?
  | context [?a =? ?b] => destruct (a =? b) eqn:?
  | context [?a <? ?b] => destruct (a <? b) eqn:?
  end.

Ltac split_test :=
  match goal with
  | |- context [if ?c then _ else _] => split_atom c
  end.

Ltac simp := repeat progress (flags; use_known; cbn [orb andb negb]).

(** Run one block of the handler on a machine whose fields are explicit. *)
Ltac block f := unfold f; simp; repeat (split_test; simp).

Ltac finish :=
  simp; repeat (match goal with |- ?g => split_atom g end; simp);
  try reflexivity; try congruence; try lia.

Ltac by_block f := block f; finish.

(** *** Lines 60-66: the momentary counter *)

Lemma momentary_count_flag (m : machine) (k : Z) :
  0 <= k < 8 ->
  flag (state (momentary_count m)) k =
  ((k =? TS) && (intr_count m =? MOMENTARY_DELAY)) || flag (state m) k.
Proof.
  intros Hk. destruct m as [st b up pc ic]. unfold momentary_count. flags.
  destruct (ic =? MOMENTARY_DELAY); flags.
  - now rewrite andb_true_r.
  - now rewrite andb_false_r.
Qed.

Lemma momentary_count_intr_count (m : machine) :
  intr_count (momentary_count m) =
  if intr_count m =? MOMENTARY_DELAY then 0 else to_int (intr_count m + 1).
Proof. destruct m. by_block momentary_count. Qed.

Lemma momentary_count_brightness_control (m : machine) :
  brightness_control (momentary_count m) = brightness_control m.
Proof. destruct m. by_block momentary_count. Qed.

Lemma momentary_count_brighness_up (m : machine) :
  brighness_up (momentary_count m) = brighness_up m.
Proof. destruct m. by_block momentary_count. Qed.

Lemma momentary_count_pulse_counter (m : machine) :
  pulse_counter (momentary_count m) = pulse_counter m.
Proof. destruct m. by_block momentary_count. Qed.

(** *** Lines 68-73: the last state bit *)

Lemma latch_last_state_flag (m : machine) (k : Z) :
  0 <= k < 8 ->
  flag (state (latch_last_state m)) k =
  if k =? LS then flag (state m) SS else flag (state m) k.
Proof.
  intros Hk. destruct m as [st b up pc ic]. unfold latch_last_state. flags.
  destruct (flag st SS) eqn:E; flags; destruct (k =? LS) eqn:E'; flags; auto.
Qed.

Lemma latch_last_state_intr_count (m : machine) :
  intr_count (latch_last_state m) = intr_count m.
Proof. destruct m. by_block latch_last_state. Qed.

Lemma latch_last_state_brightness_control (m : machine) :
  brightness_control (latch_last_state m) = brightness_control m.
Proof. destruct m. by_block latch_last_state. Qed.

Lemma latch_last_state_brighness_up (m : machine) :
  brighness_up (latch_last_state m) = brighness_up m.
Proof. destruct m. by_block latch_last_state. Qed.

Lemma latch_last_state_pulse_counter (m : machine) :
  pulse_counter (latch_last_state m) = pulse_counter m.
Proof. destruct m. by_block latch_last_state. Qed.

(** *** Lines 75-97: the FSM *)

Ltac by_fsm :=
  unfold fsm_release, fsm_turn_on, fsm_rising; by_block switch_fsm.

Lemma switch_fsm_SS (PINB : Z) (m : machine) :
  flag (state (switch_fsm PINB m)) SS = switch_down PINB.
Proof. destruct m. by_fsm. Qed.

Lemma switch_fsm_LS (PINB : Z) (m : machine) :
  flag (state (switch_fsm PINB m)) LS = flag (state m) LS.
Proof. destruct m. by_fsm. Qed.

Lemma switch_fsm_PO (PINB : Z) (m : machine) :
  flag (state (switch_fsm PINB m)) PO =
  if fsm_rising PINB m then negb (flag (state m) PO)
  else if fsm_release PINB m then false
  else flag (state m) PO.
Proof. destruct m. by_fsm. Qed.

Lemma switch_fsm_TS (PINB : Z) (m : machine) :
  flag (state (switch_fsm PINB m)) TS =
  negb (fsm_turn_on PINB m) && flag (state m) TS.
Proof. destruct m. by_fsm. Qed.

Lemma switch_fsm_SP (PINB : Z) (m : machine) :
  flag (state (switch_fsm PINB m)) SP =
  flag (state m) SP || fsm_rising PINB m || fsm_release PINB m.
Proof. destruct m. by_fsm. Qed.

Lemma switch_fsm_intr_count (PINB : Z) (m : machine) :
  intr_count (switch_fsm PINB m) =
  if fsm_turn_on PINB m then 0 else intr_count m.
Proof. destruct m. by_fsm. Qed.

Lemma switch_fsm_brightness_control (PINB : Z) (m : machine) :
  brightness_control (switch_fsm PINB m) =
  if fsm_turn_on PINB m then 0 else brightness_control m.
Proof. destruct m. by_fsm. Qed.

Lemma switch_fsm_brighness_up (PINB : Z) (m : machine) :
  brighness_up (switch_fsm PINB m) = brighness_up m.
Proof. destruct m. by_fsm. Qed.

Lemma switch_fsm_pulse_counter (PINB : Z) (m : machine) :
  pulse_counter (switch_fsm PINB m) = pulse_counter m.
Proof. destruct m. by_fsm. Qed.

(** *** Lines 99-112: the LED ramp *)

Lemma shimmer_state (m : machine) : state (shimmer m) = state m.
Proof. destruct m. by_block shimmer. Qed.

Lemma shimmer_pulse_counter (m : machine) :
  pulse_counter (shimmer m) = pulse_counter m.
Proof. destruct m. by_block shimmer. Qed.

Lemma shimmer_intr_count (m : machine) :
  intr_count (shimmer m) = intr_count m.
Proof. destruct m. by_block shimmer. Qed.

(** *** Lines 114-120: the latching pulse *)

Lemma latching_pulse_flag (m : machine) (k : Z) :
  0 <= k < 8 ->
  flag (state (latching_pulse m)) k =
  if k =? SP
  then flag (state m) SP && (pulse_counter m <? LATCHING_TIME)
  else flag (state m) k.
Proof.
  intros Hk. destruct m as [st b up pc ic]. unfold latching_pulse. flags.
  destruct (k =? SP) eqn:E.
  - apply Z.eqb_eq in E. subst k.
    destruct (flag st SP) eqn:F, (pc <? LATCHING_TIME); simp; reflexivity.
  - destruct (flag st SP) eqn:F, (pc <? LATCHING_TIME); simp;
      rewrite ?E; reflexivity.
Qed.

Lemma latching_pulse_pulse_counter (m : machine) :
  pulse_counter (latching_pulse m) =
  if flag (state m) SP && (pulse_counter m <? LATCHING_TIME)
  then to_int (pulse_counter m + 1) else 0.
Proof. destruct m. by_block latching_pulse. Qed.

Lemma latching_pulse_intr_count (m : machine) :
  intr_count (latching_pulse m) = intr_count m.
Proof. destruct m. by_block latching_pulse. Qed.

Lemma latching_pulse_brightness_control (m : machine) :
  brightness_control (latching_pulse m) = brightness_control m.
Proof. destruct m. by_block latching_pulse. Qed.

Lemma latching_pulse_brighness_up (m : machine) :
  brighness_up (latching_pulse m) = brighness_up m.
Proof. destruct m. by_block latching_pulse. Qed.

(** *** The whole tick *)

Lemma entry_flag (m : machine) (k : Z) :
  0 <= k < 8 ->
  flag (state (latch_last_state (momentary_count m))) k =
  if k =? LS then flag (state m) SS
  else if k =? TS then timer_state_due m
  else flag (state m) k.
Proof.
  intros Hk. rewrite latch_last_state_flag, !momentary_count_flag by flag_position.
  unfold timer_state_due. change (SS =? TS) with false.
  destruct (k =? LS); cbn [andb orb]; [reflexivity|].
  destruct (k =? TS) eqn:E; cbn [andb orb]; [|reflexivity].
  apply Z.eqb_eq in E. subst k. apply orb_comm.
Qed.

Lemma fsm_rising_tick (PINB : Z) (m : machine) :
  fsm_rising PINB (latch_last_state (momentary_count m)) = rising_edge PINB m.
Proof.
  unfold fsm_rising, rising_edge. now rewrite entry_flag by flag_position.
Qed.

Lemma fsm_turn_on_tick (PINB : Z) (m : machine) :
  fsm_turn_on PINB (latch_last_state (momentary_count m)) = turn_on_edge PINB m.
Proof.
  unfold fsm_turn_on, turn_on_edge.
  now rewrite fsm_rising_tick, entry_flag by flag_position.
Qed.

Lemma fsm_release_tick (PINB : Z) (m : machine) :
  fsm_release PINB (latch_last_state (momentary_count m)) =
  momentary_release PINB m.
Proof.
  unfold fsm_release, momentary_release, falling_edge.
  rewrite !entry_flag by flag_position. cbn [Z.eqb LS PO TS Pos.eqb].
  now rewrite !andb_assoc.
Qed.

Lemma after_fsm_SP (PINB : Z) (m : machine) :
  flag (state (after_fsm PINB m)) SP = flag (state m) SP || arms PINB m.
Proof.
  unfold after_fsm, arms.
  rewrite switch_fsm_SP, fsm_rising_tick, fsm_release_tick.
  rewrite entry_flag by flag_position. cbn [Z.eqb SP LS TS Pos.eqb].
  now rewrite orb_assoc.
Qed.

Lemma after_fsm_pulse_counter (PINB : Z) (m : machine) :
  pulse_counter (after_fsm PINB m) = pulse_counter m.
Proof.
  unfold after_fsm.
  now rewrite switch_fsm_pulse_counter, latch_last_state_pulse_counter,
    momentary_count_pulse_counter.
Qed.

Lemma tick_SS (PINB : Z) (m : machine) :
  flag (state (TIMER1_COMPA_vect PINB m)) SS = switch_down PINB.
Proof.
  unfold TIMER1_COMPA_vect.
  rewrite latching_pulse_flag, shimmer_state by flag_position.
  apply switch_fsm_SS.
Qed.

Lemma tick_LS (PINB : Z) (m : machine) :
  flag (state (TIMER1_COMPA_vect PINB m)) LS = flag (state m) SS.
Proof.
  unfold TIMER1_COMPA_vect.
  rewrite latching_pulse_flag, shimmer_state by flag_position.
  cbn [Z.eqb LS SP Pos.eqb].
  now rewrite switch_fsm_LS, entry_flag by flag_position.
Qed.

Lemma tick_PO (PINB : Z) (m : machine) :
  flag (state (TIMER1_COMPA_vect PINB m)) PO =
  if rising_edge PINB m then negb (flag (state m) PO)
  else if momentary_release PINB m then false
  else flag (state m) PO.
Proof.
  unfold TIMER1_COMPA_vect.
  rewrite latching_pulse_flag, shimmer_state by flag_position.
  cbn [Z.eqb PO SP Pos.eqb].
  rewrite switch_fsm_PO, fsm_rising_tick, fsm_release_tick.
  now rewrite entry_flag by flag_position.
Qed.

Lemma tick_TS (PINB : Z) (m : machine) :
  flag (state (TIMER1_COMPA_vect PINB m)) TS =
  negb (turn_on_edge PINB m) && timer_state_due m.
Proof.
  unfold TIMER1_COMPA_vect.
  rewrite latching_pulse_flag, shimmer_state by flag_position.
  cbn [Z.eqb TS SP Pos.eqb].
  rewrite switch_fsm_TS, fsm_turn_on_tick.
  now rewrite entry_flag by flag_position.
Qed.

Lemma tick_SP (PINB : Z) (m : machine) :
  flag (state (TIMER1_COMPA_vect PINB m)) SP =
  (flag (state m) SP || arms PINB m) && (pulse_counter m <? LATCHING_TIME).
Proof.
  unfold TIMER1_COMPA_vect.
  rewrite latching_pulse_flag, shimmer_state, shimmer_pulse_counter
    by flag_position.
  cbn [Z.eqb SP Pos.eqb].
  fold (after_fsm PINB m).
  now rewrite after_fsm_SP, after_fsm_pulse_counter.
Qed.

Lemma tick_pulse_counter (PINB : Z) (m : machine) :
  pulse_counter (TIMER1_COMPA_vect PINB m) =
  if (flag (state m) SP || arms PINB m) && (pulse_counter m <? LATCHING_TIME)
  then to_int (pulse_counter m + 1) else 0.
Proof.
  unfold TIMER1_COMPA_vect.
  rewrite latching_pulse_pulse_counter, shimmer_state, shimmer_pulse_counter.
  fold (after_fsm PINB m).
  now rewrite after_fsm_SP, after_fsm_pulse_counter.
Qed.

Lemma tick_intr_count (PINB : Z) (m : machine) :
  intr_count (TIMER1_COMPA_vect PINB m) =
  if turn_on_edge PINB m then 0
  else if intr_count m =? MOMENTARY_DELAY then 0
  else to_int (intr_count m + 1).
Proof.
  unfold TIMER1_COMPA_vect.
  rewrite latching_pulse_intr_count, shimmer_intr_count, switch_fsm_intr_count.
  now rewrite fsm_turn_on_tick, latch_last_state_intr_count,
    momentary_count_intr_count.
Qed.

(** The LED block sees the brightness the FSM block left: zero after a
    rising edge that turned the pedal on, the old value otherwise. *)
Lemma tick_shimmer (PINB : Z) (m : machine) :
  let m0 := if turn_on_edge PINB m then put_brightness_control 0 m else m in
  brightness_control (TIMER1_COMPA_vect PINB m) = brightness_control (shimmer m0) /\
  brighness_up (TIMER1_COMPA_vect PINB m) = brighness_up (shimmer m0).
Proof.
  unfold TIMER1_COMPA_vect.
  rewrite latching_pulse_brightness_control, latching_pulse_brighness_up.
  pose proof (switch_fsm_brightness_control PINB
                (latch_last_state (momentary_count m))) as Hb.
  pose proof (switch_fsm_brighness_up PINB
                (latch_last_state (momentary_count m))) as Hu.
  rewrite fsm_turn_on_tick, latch_last_state_brightness_control,
    momentary_count_brightness_control in Hb.
  rewrite latch_last_state_brighness_up, momentary_count_brighness_up in Hu.
  destruct (switch_fsm PINB (latch_last_state (momentary_count m)))
    as [st' b' up' pc' ic'].
  cbn [brightness_control brighness_up] in Hb, Hu. subst b' up'.
  destruct m as [st b up pc ic]; cbn [brightness_control brighness_up].
  destruct (turn_on_edge PINB (Machine st b up pc ic));
    unfold shimmer; cbn [brightness_control brighness_up put_brightness_control];
    repeat match goal with
      | |- context [if ?c then _ else _] => destruct c
      end; split; reflexivity.
Qed.

(** ** Machine integers in range *)

Lemma to_int_small (x : Z) : -32768 <= x < 32768 -> to_int x = x.
Proof. intros H. unfold to_int. rewrite Z.mod_small; lia. Qed.

Lemma to_ushort_small (x : Z) : 0 <= x < 65536 -> to_ushort x = x.
Proof. intros H. unfold to_ushort. apply Z.mod_small; lia. Qed.

Lemma to_char_small (x : Z) : 0 <= x < 256 -> to_char x = x.
Proof. intros H. unfold to_char. apply Z.mod_small; lia. Qed.

(** A property checked on [0 .. n-1] holds of every integer in that range. *)
Lemma below_forallb (P : Z -> bool) (n : nat) :
  forallb P (map Z.of_nat (seq 0 n)) = true ->
  forall x, 0 <= x < Z.of_nat n -> P x = true.
Proof.
  intros Hall x Hx. rewrite forallb_forall in Hall. apply Hall.
  apply in_map_iff. exists (Z.to_nat x). split; [lia|].
  apply in_seq. lia.
Qed.

Lemma flag_updates_in_range (x k : Z) :
  0 <= x < 32 -> In k [TS; PO; LS; SS; SP] ->
  0 <= set_bit x k < 32 /\ 0 <= clear_bit x k < 32.
Proof.
  intros Hx Hk.
  assert (H : flags_in_range x = true).
  { apply (below_forallb flags_in_range 32); [vm_compute; reflexivity | exact Hx]. }
  unfold flags_in_range in H. rewrite forallb_forall in H.
  specialize (H k Hk). lia.
Qed.

Lemma set_bit_in_range (x k : Z) :
  In k [TS; PO; LS; SS; SP] -> 0 <= x < 32 -> 0 <= set_bit x k < 32.
Proof. intros Hk Hx. now apply flag_updates_in_range. Qed.

Lemma clear_bit_in_range (x k : Z) :
  In k [TS; PO; LS; SS; SP] -> 0 <= x < 32 -> 0 <= clear_bit x k < 32.
Proof. intros Hk Hx. now apply flag_updates_in_range. Qed.

Ltac in_range :=
  repeat first
    [ assumption
    | apply set_bit_in_range; [cbn; tauto|]
    | apply clear_bit_in_range; [cbn; tauto|] ].

(** ** The invariant between ticks *)

Lemma state_in_range (PINB : Z) (m : machine) :
  0 <= state m < 32 -> 0 <= state (TIMER1_COMPA_vect PINB m) < 32.
Proof.
  intros H. unfold TIMER1_COMPA_vect.
  assert (H1 : 0 <= state (momentary_count m) < 32).
  { destruct m; cbn [state] in H; block momentary_count; in_range. }
  assert (H2 : 0 <= state (latch_last_state (momentary_count m)) < 32).
  { destruct (momentary_count m); cbn [state] in H1;
      block latch_last_state; in_range. }
  assert (H3 : 0 <= state (switch_fsm PINB (latch_last_state (momentary_count m))) < 32).
  { destruct (latch_last_state (momentary_count m)); cbn [state] in H2;
      block switch_fsm; in_range. }
  rewrite <- shimmer_state in H3.
  destruct (shimmer _); cbn [state] in H3; block latching_pulse; in_range.
Qed.

Lemma shimmer_in_range (m : machine) :
  0 <= brightness_control m <= 254 ->
  brighness_up m = 0 \/ brighness_up m = 1 ->
  0 <= brightness_control (shimmer m) <= 254 /\
  (brighness_up (shimmer m) = 0 \/ brighness_up (shimmer m) = 1).
Proof.
  intros Hb Hu. destruct m as [st b up pc ic].
  cbn [brightness_control brighness_up] in *.
  unfold shimmer; cbn [brightness_control brighness_up].
  destruct (up =? 0); cbn [negb];
    [ destruct (10 <? b) eqn:E | destruct (b <? 254) eqn:E ];
    cbn [brightness_control brighness_up put_brightness_control put_brighness_up];
    rewrite ?to_ushort_small by lia; lia.
Qed.

Lemma Inv_startup : Inv startup.
Proof.
  unfold Inv, startup, MOMENTARY_DELAY, LATCHING_TIME.
  cbn [state brightness_control brighness_up pulse_counter intr_count].
  repeat split; lia.
Qed.

Lemma Inv_tick (PINB : Z) (m : machine) :
  Inv m -> Inv (TIMER1_COMPA_vect PINB m).
Proof.
  intros (Hst & Hic & Hpc & Hb & Hup & Hsp).
  unfold MOMENTARY_DELAY, LATCHING_TIME in *.
  repeat split.
  - now apply state_in_range.
  - now apply state_in_range.
  - rewrite tick_intr_count. unfold MOMENTARY_DELAY.
    destruct (turn_on_edge PINB m); [lia|].
    destruct (intr_count m =? 400) eqn:E; [lia|].
    rewrite to_int_small; lia.
  - rewrite tick_intr_count. unfold MOMENTARY_DELAY.
    destruct (turn_on_edge PINB m); [lia|].
    destruct (intr_count m =? 400) eqn:E; [lia|].
    rewrite to_int_small; lia.
  - rewrite tick_pulse_counter. unfold LATCHING_TIME.
    destruct ((flag (state m) SP || arms PINB m) && (pulse_counter m <? 3)) eqn:E;
      [rewrite to_int_small|]; lia.
  - rewrite tick_pulse_counter. unfold LATCHING_TIME.
    destruct ((flag (state m) SP || arms PINB m) && (pulse_counter m <? 3)) eqn:E;
      [rewrite to_int_small|]; lia.
  - destruct (tick_shimmer PINB m) as [-> _].
    destruct (turn_on_edge PINB m);
      apply shimmer_in_range; destruct m; cbn in *; auto; lia.
  - destruct (tick_shimmer PINB m) as [-> _].
    destruct (turn_on_edge PINB m);
      apply shimmer_in_range; destruct m; cbn in *; auto; lia.
  - destruct (tick_shimmer PINB m) as [_ ->].
    destruct (turn_on_edge PINB m);
      apply shimmer_in_range; destruct m; cbn in *; auto; lia.
  - rewrite tick_SP, tick_pulse_counter. unfold LATCHING_TIME.
    destruct ((flag (state m) SP || arms PINB m) && (pulse_counter m <? 3)) eqn:E;
      [rewrite to_int_small by lia|]; symmetry.
    + apply negb_true_iff, Z.eqb_neq. lia.
    + reflexivity.
Qed.

Lemma reachable_Inv (m : machine) : reachable m -> Inv m.
Proof.
  induction 1 as [|PINB m _ IH]; [apply Inv_startup | now apply Inv_tick].
Qed.

Lemma run_nil (m : machine) : run [] m = m.
Proof. reflexivity. Qed.

Lemma run_cons (PINB : Z) (l : list Z) (m : machine) :
  run (PINB :: l) m = run l (TIMER1_COMPA_vect PINB m).
Proof. reflexivity. Qed.

Lemma run_app (l1 l2 : list Z) (m : machine) :
  run (l1 ++ l2) m = run l2 (run l1 m).
Proof. unfold run. apply fold_left_app. Qed.

Lemma run_snoc (l : list Z) (PINB : Z) (m : machine) :
  run (l ++ [PINB]) m = TIMER1_COMPA_vect PINB (run l m).
Proof. now rewrite run_app. Qed.

Lemma Inv_run (l : list Z) (m : machine) : Inv m -> Inv (run l m).
Proof.
  revert m. induction l as [|p l IH]; intros m H; [exact H|].
  rewrite run_cons. apply IH. now apply Inv_tick.
Qed.

Lemma reachable_run (l : list Z) (m : machine) :
  reachable m -> reachable (run l m).
Proof.
  revert m. induction l as [|p l IH]; intros m H; [exact H|].
  rewrite run_cons. apply IH. now constructor.
Qed.

(** ** The latching pulse *)

(** While the pulse flag is set and the counter is below [LATCHING_TIME],
    a tick keeps the flag and counts, whatever the switch does. *)
Lemma pulse_continues (PINB : Z) (m : machine) :
  flag (state m) SP = true -> 0 <= pulse_counter m < LATCHING_TIME ->
  flag (state (TIMER1_COMPA_vect PINB m)) SP = true /\
  pulse_counter (TIMER1_COMPA_vect PINB m) = pulse_counter m + 1.
Proof.
  intros Hsp Hpc. rewrite tick_SP, tick_pulse_counter, Hsp.
  unfold LATCHING_TIME in *.
  replace (pulse_counter m <? 3) with true by (symmetry; apply Z.ltb_lt; lia).
  cbn [orb andb]. rewrite to_int_small by lia. auto.
Qed.

(** A tick that arms the pulse from an idle counter starts it at one. *)
Lemma pulse_starts (PINB : Z) (m : machine) :
  arms PINB m = true -> pulse_counter m = 0 ->
  flag (state (TIMER1_COMPA_vect PINB m)) SP = true /\
  pulse_counter (TIMER1_COMPA_vect PINB m) = 1.
Proof.
  intros Ha Hpc. rewrite tick_SP, tick_pulse_counter, Ha, Hpc.
  rewrite orb_true_r. auto.
Qed.

(** Once the counter has reached [LATCHING_TIME], the next tick clears the
    flag and the counter, also when that tick sets the flag again. *)
Lemma pulse_ends (PINB : Z) (m : machine) :
  LATCHING_TIME <= pulse_counter m ->
  flag (state (TIMER1_COMPA_vect PINB m)) SP = false /\
  pulse_counter (TIMER1_COMPA_vect PINB m) = 0.
Proof.
  intros Hpc. rewrite tick_SP, tick_pulse_counter.
  replace (pulse_counter m <? LATCHING_TIME) with false
    by (symmetry; apply Z.ltb_ge; lia).
  rewrite andb_false_r. auto.
Qed.

(** A pulse in progress runs to [LATCHING_TIME] under any samples. *)
Lemma pulse_runs (l : list Z) (m : machine) :
  flag (state m) SP = true -> 0 <= pulse_counter m ->
  pulse_counter m + Z.of_nat (length l) <= LATCHING_TIME ->
  flag (state (run l m)) SP = true /\
  pulse_counter (run l m) = pulse_counter m + Z.of_nat (length l).
Proof.
  revert m. induction l as [|p l IH]; intros m Hsp H0 Hlen.
  - cbn [length] in *. rewrite run_nil. split; [exact Hsp | lia].
  - cbn [length] in Hlen. rewrite run_cons.
    destruct (pulse_continues p m Hsp) as [Hsp' Hpc']; [lia|].
    destruct (IH (TIMER1_COMPA_vect p m) Hsp') as [Hs Hc]; [lia..|].
    split; [exact Hs|]. rewrite Hc, Hpc'. cbn [length]. lia.
Qed.

(** ... and is cleared by the tick after that. *)
Lemma pulse_clears (l : list Z) (m : machine) :
  flag (state m) SP = true -> 0 <= pulse_counter m <= LATCHING_TIME ->
  pulse_counter m + Z.of_nat (length l) = LATCHING_TIME + 1 ->
  flag (state (run l m)) SP = false /\ pulse_counter (run l m) = 0.
Proof.
  intros Hsp H0 Hlen.
  destruct (exists_last (l := l)) as (l' & p & ->).
  { intros ->. cbn [length] in Hlen. lia. }
  rewrite run_snoc. rewrite length_app in Hlen. cbn [length] in Hlen.
  destruct (pulse_runs l' m Hsp) as [_ Hc]; [lia..|].
  apply pulse_ends. lia.
Qed.

(** ** Claims about the latching pulse *)

(** C3. A tick that arms the pulse flag, the flag being clear before it,
    opens a pulse of exactly [LATCHING_TIME] ticks: the flag is set after
    the arming tick and after each of the next [LATCHING_TIME - 1] ticks,
    the counter going 1, 2, ..., [LATCHING_TIME], and the tick after those
    clears the flag and the counter.  The samples of the window are
    arbitrary, so the pedal may be on, off or toggling meanwhile. *)
Theorem pulse_width_exact (m : machine) (PINB : Z) (window : list Z) :
  reachable m ->
  flag (state m) SP = false ->
  arms PINB m = true ->
  (Z.of_nat (length window) < LATCHING_TIME ->
   flag (state (run (PINB :: window) m)) SP = true /\
   pulse_counter (run (PINB :: window) m) = 1 + Z.of_nat (length window)) /\
  (Z.of_nat (length window) = LATCHING_TIME ->
   flag (state (run (PINB :: window) m)) SP = false /\
   pulse_counter (run (PINB :: window) m) = 0).
Proof.
  intros Hm Hclear Harm. apply reachable_Inv in Hm.
  destruct Hm as (_ & _ & _ & _ & _ & Hinv).
  assert (Hidle : pulse_counter m = 0).
  { rewrite Hclear in Hinv. symmetry in Hinv.
    apply negb_false_iff in Hinv. now apply Z.eqb_eq. }
  rewrite run_cons.
  destruct (pulse_starts PINB m Harm Hidle) as [Hsp Hpc].
  split; intros Hlen.
  - rewrite <- Hpc. apply pulse_runs; [exact Hsp | lia | lia].
  - apply pulse_clears; [exact Hsp | unfold LATCHING_TIME; lia | lia].
Qed.

Lemma pulse_width_exact_witness :
  reachable startup /\ flag (state startup) SP = false /\
  arms pressed startup = true /\
  flag (state (run [pressed; released; pressed] startup)) SP = true /\
  flag (state (run [pressed; released; pressed; released] startup)) SP = false.
Proof.
  assert (Hc : flag (state startup) SP = false) by reflexivity.
  assert (Ha : arms pressed startup = true) by reflexivity.
  split; [exact reachable_startup|]. split; [exact Hc|]. split; [exact Ha|].
  split.
  - apply (pulse_width_exact startup pressed [released; pressed]
             reachable_startup Hc Ha).
    cbn; unfold LATCHING_TIME; lia.
  - apply (pulse_width_exact startup pressed [released; pressed; released]
             reachable_startup Hc Ha).
    reflexivity.
Defined.

(** C9. Setting the pulse flag again while a pulse is in progress does not
    restart the window: from a state whose pulse counter is [c > 0], a tick
    that arms again is followed by the same countdown as any other tick; the
    flag stays set while the counter climbs from [c] to [LATCHING_TIME] and
    both are cleared [LATCHING_TIME - c + 1] ticks after the state, that is
    after fewer than [LATCHING_TIME] further ticks with the flag set. *)
Theorem rearm_does_not_restart (m : machine) (PINB : Z) (rest : list Z) :
  flag (state m) SP = true ->
  0 < pulse_counter m <= LATCHING_TIME ->
  arms PINB m = true ->
  (pulse_counter m + Z.of_nat (length (PINB :: rest)) <= LATCHING_TIME ->
   flag (state (run (PINB :: rest) m)) SP = true /\
   pulse_counter (run (PINB :: rest) m) =
     pulse_counter m + Z.of_nat (length (PINB :: rest))) /\
  (pulse_counter m + Z.of_nat (length (PINB :: rest)) = LATCHING_TIME + 1 ->
   flag (state (run (PINB :: rest) m)) SP = false /\
   pulse_counter (run (PINB :: rest) m) = 0).
Proof.
  intros Hsp Hpc _. split; intros Hlen.
  - apply pulse_runs; [exact Hsp | lia | exact Hlen].
  - apply pulse_clears; [exact Hsp | lia | exact Hlen].
Qed.

Lemma rearm_does_not_restart_witness :
  let m := run [pressed; released] startup in
  pulse_counter m = 2 /\ arms pressed m = true /\
  flag (state (run [pressed] m)) SP = true /\
  pulse_counter (run [pressed] m) = 3 /\
  flag (state (run [pressed; pressed] m)) SP = false.
Proof.
  intros m.
  assert (Hsp : flag (state m) SP = true) by reflexivity.
  assert (Hpc : 0 < pulse_counter m <= LATCHING_TIME) by (vm_compute; intuition discriminate).
  assert (Ha : arms pressed m = true) by reflexivity.
  split; [reflexivity|]. split; [exact Ha|].
  destruct (rearm_does_not_restart m pressed [] Hsp Hpc Ha) as [H1 _].
  destruct (rearm_does_not_restart m pressed [pressed] Hsp Hpc Ha) as [_ H2].
  split; [apply H1; vm_compute; discriminate|].
  split; [apply H1; vm_compute; discriminate|].
  apply H2. reflexivity.
Defined.

(** ** The main loop *)

Lemma pin_or_mask (p j : Z) :
  0 <= j < 8 ->
  Z.testbit (to_char (Z.lor p (Z.lor (Z.shiftl 1 PB3) (Z.shiftl 1 PB1)))) j =
  Z.testbit p j || ((j =? PB3) || (j =? PB1)).
Proof.
  intros Hj.
  rewrite testbit_to_char, !Z.lor_spec, !testbit_one_shifted by flag_position.
  reflexivity.
Qed.

Ltac pins :=
  unfold pin;
  cbn [PORTB OCR0A upd_PORTB put_OCR0A];
  repeat first
    [ rewrite testbit_set_bit by flag_position
    | rewrite testbit_clear_bit by flag_position
    | rewrite pin_or_mask by flag_position ];
  cbn [Z.eqb Pos.eqb PB1 PB3 PB4 PB5 orb andb negb];
  rewrite ?orb_true_r, ?orb_false_r, ?andb_true_r, ?andb_false_r.

(** C8. One iteration of the main loop, run on the globals as a tick left
    them, drives the outputs from the flags alone.  Pedal on: active high
    relay pin and static LED pin high, active low relay pin low, and the PWM
    duty cycle is the live brightness while the switch is down and 255
    otherwise.  Pedal off: those two pins low, the active low relay pin
    high, duty cycle 0.  In both cases the latching relay pin is high
    exactly when the pulse flag is set. *)
Theorem main_loop_outputs (m : machine) (io : ports) :
  reachable m ->
  (if flag (state m) PO
   then pin (main_loop m io) PB3 = true /\
        pin (main_loop m io) PB1 = true /\
        pin (main_loop m io) PB5 = false /\
        OCR0A (main_loop m io) =
          (if flag (state m) SS then brightness_control m else 255)
   else pin (main_loop m io) PB3 = false /\
        pin (main_loop m io) PB1 = false /\
        pin (main_loop m io) PB5 = true /\
        OCR0A (main_loop m io) = 0) /\
  pin (main_loop m io) PB4 = flag (state m) SP.
Proof.
  intros Hm. apply reachable_Inv in Hm.
  destruct Hm as (_ & _ & _ & Hb & _ & Hsp).
  unfold main_loop. rewrite Hsp.
  destruct (flag (state m) PO), (flag (state m) SS),
    (negb (pulse_counter m =? 0));
    pins; rewrite ?to_char_small by lia; repeat split; reflexivity.
Qed.

Lemma main_loop_outputs_witness :
  let m := run [pressed] startup in
  let out := main_loop m (Ports 4 0) in
  reachable m /\
  pin out PB3 = true /\ pin out PB1 = true /\ pin out PB5 = false /\
  OCR0A out = brightness_control m /\ pin out PB4 = true.
Proof.
  intros m out.
  assert (Hm : reachable m) by (apply reachable_run, reachable_startup).
  split; [exact Hm|].
  pose proof (main_loop_outputs m (Ports 4 0) Hm) as H.
  change (flag (state m) PO) with true in H.
  change (flag (state m) SS) with true in H.
  change (flag (state m) SP) with true in H.
  cbv iota in H. tauto.
Defined.

(** ** Ticks without an edge, and holds *)

Lemma no_edge (PINB : Z) (m : machine) :
  switch_down PINB = flag (state m) SS ->
  rising_edge PINB m = false /\ falling_edge PINB m = false /\
  turn_on_edge PINB m = false /\ momentary_release PINB m = false /\
  arms PINB m = false.
Proof.
  intros H. unfold arms, momentary_release, turn_on_edge, falling_edge,
    rising_edge. rewrite H.
  destruct (flag (state m) SS); cbn [negb andb orb]; auto.
Qed.

Lemma no_edge_tick (PINB : Z) (m : machine) :
  switch_down PINB = flag (state m) SS ->
  flag (state (TIMER1_COMPA_vect PINB m)) SS = flag (state m) SS /\
  flag (state (TIMER1_COMPA_vect PINB m)) PO = flag (state m) PO /\
  flag (state (TIMER1_COMPA_vect PINB m)) TS = timer_state_due m /\
  flag (state (TIMER1_COMPA_vect PINB m)) SP =
    flag (state m) SP && (pulse_counter m <? LATCHING_TIME) /\
  intr_count (TIMER1_COMPA_vect PINB m) =
    if intr_count m =? MOMENTARY_DELAY then 0 else to_int (intr_count m + 1).
Proof.
  intros H. destruct (no_edge PINB m H) as (Hr & _ & Ht & Hm & Ha).
  rewrite tick_SS, tick_PO, tick_TS, tick_SP, tick_intr_count.
  rewrite Hr, Ht, Hm, Ha, orb_false_r. cbn [negb andb]. auto.
Qed.

(** While the switch stays down and the timer state bit is clear, the
    counter runs up to [MOMENTARY_DELAY]. *)
Lemma hold_counts (l : list Z) (m : machine) :
  all_down l -> flag (state m) SS = true -> flag (state m) TS = false ->
  0 <= intr_count m ->
  intr_count m + Z.of_nat (length l) <= MOMENTARY_DELAY ->
  flag (state (run l m)) SS = true /\
  flag (state (run l m)) PO = flag (state m) PO /\
  flag (state (run l m)) TS = false /\
  intr_count (run l m) = intr_count m + Z.of_nat (length l).
Proof.
  intros Hl. revert m.
  induction Hl as [|p l Hp _ IH]; intros m Hss Hts H0 Hlen.
  - rewrite run_nil. cbn [length]. repeat split; auto; lia.
  - cbn [length] in Hlen. rewrite run_cons.
    assert (He : switch_down p = flag (state m) SS) by congruence.
    destruct (no_edge_tick p m He) as (Hss' & Hpo' & Hts' & _ & Hic').
    unfold timer_state_due in Hts'. unfold MOMENTARY_DELAY in *.
    replace (intr_count m =? 400) with false in *
      by (symmetry; apply Z.eqb_neq; lia).
    rewrite to_int_small in Hic' by lia.
    rewrite Hts in Hts'. cbn [orb] in Hts'.
    destruct (IH (TIMER1_COMPA_vect p m)) as (A & B & C & D);
      [congruence | exact Hts' | lia | lia |].
    repeat split; [exact A | congruence | exact C |].
    rewrite D, Hic'. cbn [length]. lia.
Qed.

(** Once set, the timer state bit survives every tick of the hold. *)
Lemma hold_keeps_timer_state (l : list Z) (m : machine) :
  all_down l -> flag (state m) SS = true -> flag (state m) TS = true ->
  flag (state (run l m)) SS = true /\
  flag (state (run l m)) PO = flag (state m) PO /\
  flag (state (run l m)) TS = true.
Proof.
  intros Hl. revert m.
  induction Hl as [|p l Hp _ IH]; intros m Hss Hts.
  - rewrite run_nil. auto.
  - rewrite run_cons.
    assert (He : switch_down p = flag (state m) SS) by congruence.
    destruct (no_edge_tick p m He) as (Hss' & Hpo' & Hts' & _ & _).
    unfold timer_state_due in Hts'. rewrite Hts in Hts'. cbn [orb] in Hts'.
    destruct (IH (TIMER1_COMPA_vect p m)) as (A & B & C);
      [congruence | exact Hts' |].
    repeat split; [exact A | congruence | exact C].
Qed.

Lemma all_down_app (l1 l2 : list Z) :
  all_down (l1 ++ l2) <-> all_down l1 /\ all_down l2.
Proof. apply Forall_app. Qed.

(** A hold that starts with the counter and the timer state bit clear: the
    bit is set by the tick that finds the counter at [MOMENTARY_DELAY], the
    [(MOMENTARY_DELAY + 1)]-th tick of the hold, and not before. *)
Lemma hold_expires (l : list Z) (m : machine) :
  all_down l -> flag (state m) SS = true -> flag (state m) TS = false ->
  intr_count m = 0 ->
  flag (state (run l m)) SS = true /\
  flag (state (run l m)) PO = flag (state m) PO /\
  flag (state (run l m)) TS = (MOMENTARY_DELAY <? Z.of_nat (length l)).
Proof.
  intros Hl Hss Hts Hic.
  destruct (Z.leb_spec (Z.of_nat (length l)) MOMENTARY_DELAY) as [Hle|Hgt].
  - destruct (hold_counts l m Hl Hss Hts) as (A & B & C & _); [lia..|].
    replace (MOMENTARY_DELAY <? Z.of_nat (length l)) with false
      by (symmetry; apply Z.ltb_ge; lia).
    auto.
  - replace (MOMENTARY_DELAY <? Z.of_nat (length l)) with true
      by (symmetry; apply Z.ltb_lt; lia).
    unfold MOMENTARY_DELAY in *.
    rewrite <- (firstn_skipn 400 l) in Hl |- *.
    apply all_down_app in Hl. destruct Hl as [Hl1 Hl2].
    assert (Hn1 : length (firstn 400 l) = 400%nat)
      by (apply firstn_length_le; lia).
    destruct (skipn 400 l) as [|p l2] eqn:Esk.
    { pose proof (length_skipn 400 l) as Hs. rewrite Esk in Hs.
      cbn [length] in Hs. lia. }
    rewrite run_app, run_cons.
    destruct (hold_counts (firstn 400 l) m Hl1 Hss Hts) as (A & B & C & D);
      [lia | unfold MOMENTARY_DELAY; lia |].
    rewrite Hn1, Hic in D.
    set (m1 := run (firstn 400 l) m) in *.
    inversion Hl2 as [|? ? Hp Hl2']; subst.
    assert (He : switch_down p = flag (state m1) SS) by congruence.
    destruct (no_edge_tick p m1 He) as (Hss' & Hpo' & Hts' & _ & _).
    unfold timer_state_due, MOMENTARY_DELAY in Hts'. rewrite D in Hts'.
    change (Z.of_nat 400 =? 400) with true in Hts'.
    rewrite orb_true_r in Hts'.
    destruct (hold_keeps_timer_state l2 (TIMER1_COMPA_vect p m1) Hl2')
      as (A' & B' & C'); [congruence | exact Hts' |].
    repeat split; [exact A' | congruence | exact C'].
Qed.

(** The press edge that turns the pedal on starts such a hold. *)
Lemma press_turns_on (PINB : Z) (m : machine) :
  switch_down PINB = true ->
  flag (state m) SS = false -> flag (state m) PO = false ->
  turn_on_edge PINB m = true /\
  flag (state (TIMER1_COMPA_vect PINB m)) SS = true /\
  flag (state (TIMER1_COMPA_vect PINB m)) PO = true /\
  flag (state (TIMER1_COMPA_vect PINB m)) TS = false /\
  intr_count (TIMER1_COMPA_vect PINB m) = 0.
Proof.
  intros Hd Hss Hpo.
  assert (Hr : rising_edge PINB m = true)
    by (unfold rising_edge; now rewrite Hd, Hss).
  assert (Ht : turn_on_edge PINB m = true)
    by (unfold turn_on_edge; now rewrite Hr, Hpo).
  rewrite tick_SS, tick_PO, tick_TS, tick_intr_count, Hr, Ht, Hpo.
  cbn [negb andb]. auto.
Qed.

Lemma no_edge_pulse (PINB : Z) (m : machine) :
  Inv m -> switch_down PINB = flag (state m) SS ->
  ticks_to_idle (TIMER1_COMPA_vect PINB m) = Z.max 0 (ticks_to_idle m - 1).
Proof.
  intros (_ & _ & Hpc & _ & _ & Hsp) He.
  destruct (no_edge PINB m He) as (_ & _ & _ & _ & Ha).
  unfold ticks_to_idle. rewrite tick_pulse_counter, Ha, Hsp, orb_false_r.
  unfold LATCHING_TIME in *.
  destruct (pulse_counter m =? 0) eqn:E0; cbn [negb andb].
  - reflexivity.
  - apply Z.eqb_neq in E0.
    destruct (pulse_counter m <? 3) eqn:E3.
    + apply Z.ltb_lt in E3. rewrite to_int_small by lia.
      replace (pulse_counter m + 1 =? 0) with false
        by (symmetry; apply Z.eqb_neq; lia).
      lia.
    + apply Z.ltb_ge in E3. change (0 =? 0) with true. cbv iota. lia.
Qed.

Lemma hold_pulse (l : list Z) (m : machine) :
  all_down l -> Inv m -> flag (state m) SS = true ->
  ticks_to_idle (run l m) = Z.max 0 (ticks_to_idle m - Z.of_nat (length l)).
Proof.
  intros Hl. revert m.
  induction Hl as [|p l Hp _ IH]; intros m Hinv Hss.
  - rewrite run_nil. cbn [length]. unfold ticks_to_idle.
    destruct Hinv as (_ & _ & Hpc & _). unfold LATCHING_TIME in *.
    destruct (pulse_counter m =? 0); lia.
  - rewrite run_cons.
    assert (He : switch_down p = flag (state m) SS) by congruence.
    rewrite IH; [| now apply Inv_tick | rewrite tick_SS; exact Hp].
    rewrite (no_edge_pulse p m Hinv He). cbn [length]. lia.
Qed.

(** Three ticks into a hold, no pulse is in progress any more. *)
Lemma hold_pulse_idle (l : list Z) (m : machine) :
  all_down l -> Inv m -> flag (state m) SS = true ->
  (3 <= length l)%nat ->
  pulse_counter (run l m) = 0.
Proof.
  intros Hl Hinv Hss Hlen.
  pose proof (hold_pulse l m Hl Hinv Hss) as H.
  pose proof (Inv_run l m Hinv) as (_ & _ & Hpc' & _).
  destruct Hinv as (_ & _ & Hpc & _).
  unfold ticks_to_idle, LATCHING_TIME in *.
  destruct (pulse_counter (run l m) =? 0) eqn:E; [now apply Z.eqb_eq|].
  destruct (pulse_counter m =? 0) eqn:E0; lia.
Qed.

(** ** Claims about taps and holds *)

(** The counter reaches [MOMENTARY_DELAY] one tick before the bit is set:
    the handler tests the counter before it runs the FSM block, so a release
    sample at that very tick already finds the bit set. *)
Lemma hold_due (l : list Z) (m : machine) :
  all_down l -> flag (state m) SS = true -> flag (state m) TS = false ->
  intr_count m = 0 ->
  timer_state_due (run l m) = (MOMENTARY_DELAY <=? Z.of_nat (length l)).
Proof.
  intros Hl Hss Hts Hic. unfold timer_state_due.
  destruct (Z.leb_spec (Z.of_nat (length l)) MOMENTARY_DELAY) as [Hle|Hgt].
  - destruct (hold_counts l m Hl Hss Hts) as (_ & _ & C & D); [lia..|].
    rewrite C, D, Hic. cbn [orb].
    destruct (Z.eqb_spec (0 + Z.of_nat (length l)) MOMENTARY_DELAY);
      symmetry; [apply Z.leb_le | apply Z.leb_gt]; lia.
  - destruct (hold_expires l m Hl Hss Hts Hic) as (_ & _ & C).
    rewrite C.
    replace (MOMENTARY_DELAY <? Z.of_nat (length l)) with true
      by (symmetry; apply Z.ltb_lt; lia).
    symmetry. apply Z.leb_le. lia.
Qed.

(** The release that ends a hold whose timer is due, with the pedal on and
    no pulse in progress: pedal off, pulse armed. *)
Lemma release_of_momentary (PINB : Z) (m : machine) :
  switch_down PINB = false ->
  flag (state m) SS = true -> flag (state m) PO = true ->
  timer_state_due m = true -> pulse_counter m = 0 ->
  flag (state (TIMER1_COMPA_vect PINB m)) PO = false /\
  flag (state (TIMER1_COMPA_vect PINB m)) SP = true /\
  pulse_counter (TIMER1_COMPA_vect PINB m) = 1.
Proof.
  intros Hd Hss Hpo Hts Hpc.
  assert (Hr : rising_edge PINB m = false)
    by (unfold rising_edge; now rewrite Hd).
  assert (Hm : momentary_release PINB m = true).
  { unfold momentary_release, falling_edge. now rewrite Hd, Hss, Hpo, Hts. }
  assert (Ha : arms PINB m = true)
    by (unfold arms; now rewrite Hm, orb_true_r).
  rewrite tick_PO, Hr, Hm.
  destruct (pulse_starts PINB m Ha Hpc) as [A B]. auto.
Qed.

(** C2, as the code has it.  From Idle (switch state bit and pedal bit
    clear), a press turns the pedal on at the press tick and it stays on
    while the switch is held.  Counting the press tick as tick 0, the timer
    state bit is clear after every tick up to tick [MOMENTARY_DELAY] and set
    after tick [MOMENTARY_DELAY + 1] and every later tick of the hold: a
    hold engages momentary mode once it has lasted more than
    [MOMENTARY_DELAY] ticks.  A released sample at tick
    [MOMENTARY_DELAY + 1] or later turns the pedal off and arms the pulse
    on that same tick. *)
Theorem hold_engages_momentary
  (m : machine) (press : Z) (hold : list Z) (release : Z) :
  reachable m ->
  flag (state m) SS = false -> flag (state m) PO = false ->
  switch_down press = true -> all_down hold -> switch_down release = false ->
  flag (state (TIMER1_COMPA_vect press m)) PO = true /\
  flag (state (run (press :: hold) m)) PO = true /\
  flag (state (run (press :: hold) m)) TS =
    (MOMENTARY_DELAY <? Z.of_nat (length hold)) /\
  (MOMENTARY_DELAY <= Z.of_nat (length hold) ->
   flag (state (run (press :: hold ++ [release]) m)) PO = false /\
   flag (state (run (press :: hold ++ [release]) m)) SP = true /\
   pulse_counter (run (press :: hold ++ [release]) m) = 1).
Proof.
  intros Hm Hss Hpo Hp Hh Hr. apply reachable_Inv in Hm.
  destruct (press_turns_on press m Hp Hss Hpo) as (_ & A & B & C & D).
  set (m1 := TIMER1_COMPA_vect press m) in *.
  assert (Hinv1 : Inv m1) by now apply Inv_tick.
  destruct (hold_expires hold m1 Hh A C D) as (A' & B' & C').
  rewrite run_cons. fold m1.
  split; [exact B|]. split; [congruence|]. split; [exact C'|].
  intros Hlong.
  change (press :: hold ++ [release]) with ((press :: hold) ++ [release]).
  rewrite run_snoc, run_cons. fold m1.
  apply release_of_momentary; try congruence.
  - rewrite (hold_due hold m1 Hh A C D). apply Z.leb_le. exact Hlong.
  - apply hold_pulse_idle; auto. unfold MOMENTARY_DELAY in Hlong. lia.
Qed.

Lemma hold_engages_momentary_witness :
  let hold := repeat pressed 400 in
  reachable startup /\
  flag (state (run (pressed :: hold) startup)) PO = true /\
  flag (state (run (pressed :: hold) startup)) TS = false /\
  flag (state (run (pressed :: hold ++ [released]) startup)) PO = false /\
  flag (state (run (pressed :: hold ++ [released]) startup)) SP = true.
Proof.
  intros hold.
  assert (Hh : all_down hold) by (apply Forall_forall; intros x Hx;
    apply repeat_spec in Hx; subst x; reflexivity).
  pose proof (hold_engages_momentary startup pressed hold released
                reachable_startup eq_refl eq_refl eq_refl Hh eq_refl)
    as (_ & H1 & H2 & H3).
  split; [exact reachable_startup|].
  split; [exact H1|].
  split; [rewrite H2; reflexivity|].
  destruct H3 as (A & B & _); [vm_compute; discriminate|].
  split; [exact A | exact B].
Defined.

(** With the press tick as tick 0, the timer state bit is still clear after
    tick [MOMENTARY_DELAY] (401 pressed samples), and so after the
    [MOMENTARY_DELAY]-th tick of the press (400 pressed samples); a release
    at tick [MOMENTARY_DELAY] leaves the pedal latched on.  The bit is set
    one tick later. *)
Lemma hold_not_expired_at_MOMENTARY_DELAY :
  flag (state (run (repeat pressed 400) startup)) TS = false /\
  flag (state (run (repeat pressed 401) startup)) TS = false /\
  flag (state (run (repeat pressed 400 ++ [released]) startup)) PO = true /\
  flag (state (run (repeat pressed 402) startup)) TS = true.
Proof. vm_compute. repeat split; reflexivity. Qed.

(** While the switch stays down, the pedal bit does not move. *)
Lemma hold_keeps_pedal (l : list Z) (m : machine) :
  all_down l -> flag (state m) SS = true ->
  flag (state (run l m)) SS = true /\
  flag (state (run l m)) PO = flag (state m) PO.
Proof.
  intros Hl. revert m. induction Hl as [|p l Hp _ IH]; intros m Hss.
  - rewrite run_nil. auto.
  - rewrite run_cons.
    assert (He : switch_down p = flag (state m) SS) by congruence.
    destruct (no_edge_tick p m He) as (Hss' & Hpo' & _).
    destruct (IH (TIMER1_COMPA_vect p m)) as (A & B); [congruence|].
    split; [exact A | congruence].
Qed.

(** A tap: the press edge flips the pedal bit, and arms the pulse unless
    the pulse counter stands at [LATCHING_TIME]; a release that comes fewer
    than [MOMENTARY_DELAY] ticks after the press tick changes neither. *)
Lemma tap_toggles (m : machine) (press : Z) (hold : list Z) (release : Z) :
  flag (state m) SS = false ->
  switch_down press = true -> all_down hold -> switch_down release = false ->
  Z.of_nat (length hold) + 1 < MOMENTARY_DELAY ->
  flag (state (TIMER1_COMPA_vect press m)) PO = negb (flag (state m) PO) /\
  (pulse_counter m < LATCHING_TIME ->
   flag (state (TIMER1_COMPA_vect press m)) SP = true) /\
  flag (state (run (press :: hold ++ [release]) m)) PO =
    negb (flag (state m) PO) /\
  arms release (run (press :: hold) m) = false.
Proof.
  intros Hss Hp Hh Hr Hshort.
  assert (Hrise : rising_edge press m = true)
    by (unfold rising_edge; now rewrite Hp, Hss).
  assert (Hpo1 : flag (state (TIMER1_COMPA_vect press m)) PO =
                 negb (flag (state m) PO)) by now rewrite tick_PO, Hrise.
  assert (Hss1 : flag (state (TIMER1_COMPA_vect press m)) SS = true)
    by now rewrite tick_SS.
  set (m1 := TIMER1_COMPA_vect press m) in *.
  destruct (hold_keeps_pedal hold m1 Hh Hss1) as (Hss2 & Hpo2).
  assert (Hquiet : momentary_release release (run hold m1) = false).
  { unfold momentary_release, falling_edge. rewrite Hr, Hss2, Hpo2, Hpo1.
    cbn [negb andb].
    destruct (flag (state m) PO) eqn:Hpo; cbn [negb andb]; [reflexivity|].
    destruct (press_turns_on press m Hp Hss Hpo) as (_ & _ & _ & C & D).
    fold m1 in C, D.
    rewrite (hold_due hold m1 Hh Hss1 C D). apply Z.leb_gt. lia. }
  assert (Hnr : rising_edge release (run hold m1) = false)
    by (unfold rising_edge; now rewrite Hr).
  split; [exact Hpo1|]. split.
  - intros Hpc. unfold m1. rewrite tick_SP. unfold arms. rewrite Hrise.
    rewrite orb_true_r. apply Z.ltb_lt. exact Hpc.
  - change (press :: hold ++ [release]) with ((press :: hold) ++ [release]).
    rewrite run_snoc, !run_cons. fold m1.
    split.
    + rewrite tick_PO, Hnr, Hquiet. congruence.
    + unfold arms. now rewrite Hnr, Hquiet.
Qed.

(** C1, where the code departs from it.  Press, release, release from
    startup leaves the switch released, the pedal on and the pulse counter
    at [LATCHING_TIME].  The next pressed sample is a rising edge: it turns
    the pedal off and the FSM block sets the pulse flag, but the pulse block
    of the same tick finds the counter at [LATCHING_TIME] and clears flag
    and counter, so this toggle produces no pulse at all. *)
Theorem press_on_last_pulse_tick_arms_nothing :
  let m := run [pressed; released; released] startup in
  reachable m /\
  flag (state m) SS = false /\ flag (state m) PO = true /\
  pulse_counter m = LATCHING_TIME /\
  rising_edge pressed m = true /\
  flag (state (TIMER1_COMPA_vect pressed m)) PO = false /\
  flag (state (after_fsm pressed m)) SP = true /\
  flag (state (TIMER1_COMPA_vect pressed m)) SP = false /\
  pulse_counter (TIMER1_COMPA_vect pressed m) = 0 /\
  pin (main_loop (TIMER1_COMPA_vect pressed m) (Ports 0 0)) PB4 = false.
Proof.
  intros m. split; [apply reachable_run, reachable_startup|].
  vm_compute. repeat split; reflexivity.
Qed.

(** ** Claims about the hold timer *)

Lemma trace_snoc {A : Type} (obs : machine -> A) (l : list Z) (p : Z)
  (m : machine) :
  trace obs (l ++ [p]) m = trace obs l m ++ [obs (run (l ++ [p]) m)].
Proof.
  revert m. induction l as [|q l IH]; intros m.
  - reflexivity.
  - cbn [app trace]. rewrite IH. reflexivity.
Qed.

Lemma trace_length {A : Type} (obs : machine -> A) (l : list Z) (m : machine) :
  length (trace obs l m) = length l.
Proof.
  revert m. induction l as [|q l IH]; intros m; cbn [trace length]; auto.
Qed.

(** The timer state bit along a hold that starts with bit and counter
    clear: after [k] ticks it is set exactly when [k > MOMENTARY_DELAY]. *)
Lemma hold_trace (l : list Z) (m : machine) :
  all_down l -> flag (state m) SS = true -> flag (state m) TS = false ->
  intr_count m = 0 ->
  trace (fun s => flag (state s) TS) l m =
  map (fun k => MOMENTARY_DELAY <? Z.of_nat k) (seq 1 (length l)).
Proof.
  intros Hl Hss Hts Hic. induction l as [|p l IH] using rev_ind.
  - reflexivity.
  - pose proof Hl as Hl'. apply all_down_app in Hl'. destruct Hl' as [Hl1 _].
    rewrite trace_snoc, IH by exact Hl1.
    destruct (hold_expires (l ++ [p]) m Hl Hss Hts Hic) as (_ & _ & ->).
    rewrite length_app. cbn [length].
    rewrite seq_app, map_app. cbn [seq map]. do 3 f_equal. lia.
Qed.

(** C5, as the code has it.  A continuous press that starts with the pedal
    off clears the timer state bit at the press tick; with the press tick as
    tick 0, the bit after tick [k] of the press is set exactly when
    [k > MOMENTARY_DELAY].  So the bit goes from clear to set once, at tick
    [MOMENTARY_DELAY + 1], and stays set on every later tick of the press;
    in particular a press of [2 * MOMENTARY_DELAY] ticks sees exactly one
    such transition. *)
Theorem hold_timer_fires_once (m : machine) (press : Z) (hold : list Z) :
  flag (state m) SS = false -> flag (state m) PO = false ->
  switch_down press = true -> all_down hold ->
  trace (fun s => flag (state s) TS) (press :: hold) m =
    map (fun k => MOMENTARY_DELAY <? Z.of_nat k) (seq 0 (S (length hold))) /\
  (length (press :: hold) = Z.to_nat (2 * MOMENTARY_DELAY) ->
   rises (flag (state m) TS)
         (trace (fun s => flag (state s) TS) (press :: hold) m) = 1%nat).
Proof.
  intros Hss Hpo Hp Hh.
  destruct (press_turns_on press m Hp Hss Hpo) as (_ & A & _ & C & D).
  assert (Htr : trace (fun s => flag (state s) TS) (press :: hold) m =
    map (fun k => MOMENTARY_DELAY <? Z.of_nat k) (seq 0 (S (length hold)))).
  { cbn [trace seq map]. rewrite C, (hold_trace hold _ Hh A C D).
    reflexivity. }
  split; [exact Htr|].
  intros Hlen. rewrite Htr. cbn [length] in Hlen.
  replace (length hold) with 799%nat by (unfold MOMENTARY_DELAY in Hlen; lia).
  destruct (flag (state m) TS); vm_compute; reflexivity.
Qed.

Lemma hold_timer_fires_once_witness :
  let hold := repeat pressed 799 in
  rises (flag (state startup) TS)
        (trace (fun s => flag (state s) TS) (pressed :: hold) startup) = 1%nat.
Proof.
  intros hold.
  assert (Hh : all_down hold) by (apply Forall_forall; intros x Hx;
    apply repeat_spec in Hx; subst x; reflexivity).
  apply (hold_timer_fires_once startup pressed hold eq_refl eq_refl eq_refl Hh).
  reflexivity.
Defined.

(** A press that starts with the pedal on does not clear the timer state
    bit.  After a tap and 402 released ticks the free-running counter has
    set the bit; a press of [2 * MOMENTARY_DELAY] ticks from there sees the
    bit set throughout and no clear-to-set transition at all. *)
Lemma hold_timer_set_before_press :
  let m := run (pressed :: repeat released 402) startup in
  reachable m /\
  flag (state m) SS = false /\ flag (state m) PO = true /\
  flag (state m) TS = true /\
  trace (fun s => flag (state s) TS) (repeat pressed 800) m = repeat true 800 /\
  rises (flag (state m) TS)
        (trace (fun s => flag (state s) TS) (repeat pressed 800) m) = 0%nat.
Proof.
  intros m. split; [apply reachable_run, reachable_startup|].
  vm_compute. repeat split; reflexivity.
Qed.

(** C4, as the code has it.  The momentary counter runs on every tick,
    whether the switch is down or not: a tick resets it to 0 when it finds
    it at [MOMENTARY_DELAY] (the tick that sets the timer state bit) or when
    it is a rising edge that turns the pedal on (which clears that bit), and
    increments it otherwise. *)
Theorem intr_count_free_running (m : machine) (PINB : Z) :
  intr_count (TIMER1_COMPA_vect PINB m) =
    (if turn_on_edge PINB m then 0
     else if intr_count m =? MOMENTARY_DELAY then 0
     else to_int (intr_count m + 1)) /\
  flag (state (TIMER1_COMPA_vect PINB m)) TS =
    negb (turn_on_edge PINB m) &&
    (flag (state m) TS || (intr_count m =? MOMENTARY_DELAY)).
Proof.
  split; [apply tick_intr_count | apply tick_TS].
Qed.

(** Released ticks count: from startup the counter stands at 1 after one
    released tick and at 5 after five. *)
Lemma intr_count_counts_while_released :
  switch_down released = false /\
  intr_count (TIMER1_COMPA_vect released startup) = 1 /\
  intr_count (run (repeat released 5) startup) = 5.
Proof. vm_compute. repeat split; reflexivity. Qed.

(** ** Claims about ticks without an edge *)

Lemma after_fsm_PO (PINB : Z) (m : machine) :
  flag (state (after_fsm PINB m)) PO =
  if rising_edge PINB m then negb (flag (state m) PO)
  else if momentary_release PINB m then false
  else flag (state m) PO.
Proof.
  unfold after_fsm.
  rewrite switch_fsm_PO, fsm_rising_tick, fsm_release_tick.
  now rewrite entry_flag by flag_position.
Qed.

(** C10, as the code has it.  On a tick whose sample equals the switch
    state bit, the FSM block leaves the pedal bit and the pulse flag as they
    were, and the pedal bit is unchanged by the whole tick.  The pulse flag
    is never set by such a tick, but the pulse block clears it when the
    pulse counter has reached [LATCHING_TIME]. *)
Theorem no_edge_frame (m : machine) (PINB : Z) :
  switch_down PINB = flag (state m) SS ->
  flag (state (after_fsm PINB m)) PO = flag (state m) PO /\
  flag (state (after_fsm PINB m)) SP = flag (state m) SP /\
  flag (state (TIMER1_COMPA_vect PINB m)) PO = flag (state m) PO /\
  flag (state (TIMER1_COMPA_vect PINB m)) SP =
    flag (state m) SP && (pulse_counter m <? LATCHING_TIME).
Proof.
  intros He.
  destruct (no_edge PINB m He) as (Hr & _ & _ & Hm & Ha).
  destruct (no_edge_tick PINB m He) as (_ & Hpo & _ & Hsp & _).
  rewrite after_fsm_PO, after_fsm_SP, Hr, Hm, Ha, orb_false_r. auto.
Qed.

Lemma no_edge_frame_witness :
  let m := run [pressed; pressed] startup in
  switch_down pressed = flag (state m) SS /\
  flag (state (TIMER1_COMPA_vect pressed m)) PO = true /\
  flag (state (TIMER1_COMPA_vect pressed m)) SP = true.
Proof.
  intros m.
  assert (He : switch_down pressed = flag (state m) SS) by reflexivity.
  destruct (no_edge_frame m pressed He) as (_ & _ & Hpo & Hsp).
  split; [exact He|]. split; [rewrite Hpo | rewrite Hsp]; reflexivity.
Defined.

(** The fourth tick of a press has no edge and still clears the pulse flag
    that the press tick set. *)
Lemma pulse_flag_clears_without_edge :
  let m := run [pressed; pressed; pressed] startup in
  reachable m /\
  switch_down pressed = flag (state m) SS /\
  flag (state m) SP = true /\
  flag (state (TIMER1_COMPA_vect pressed m)) SP = false.
Proof.
  intros m. split; [apply reachable_run, reachable_startup|].
  vm_compute. repeat split; reflexivity.
Qed.

(** ** Claims about the LED ramp *)

Lemma led_eqb_eq (x y : Z * Z) : led_eqb x y = true -> x = y.
Proof.
  destruct x, y. unfold led_eqb. cbn [fst snd]. intros H.
  apply andb_true_iff in H. destruct H as [A B].
  apply Z.eqb_eq in A, B. congruence.
Qed.

Lemma shimmer_led (m : machine) : led (shimmer m) = ramp (led m).
Proof.
  destruct m as [st b up pc ic]. unfold ramp, led, shimmer.
  cbn [brightness_control brighness_up fst snd].
  repeat match goal with
    | |- context [if ?c then _ else _] => destruct c
    end; reflexivity.
Qed.

Lemma tick_led (PINB : Z) (m : machine) :
  led (TIMER1_COMPA_vect PINB m) =
  ramp (if turn_on_edge PINB m then (0, brighness_up m) else led m).
Proof.
  destruct (tick_shimmer PINB m) as [Hb Hu].
  unfold led at 1. rewrite Hb, Hu.
  destruct (turn_on_edge PINB m).
  - apply (shimmer_led (put_brightness_control 0 m)).
  - apply (shimmer_led m).
Qed.

Lemma no_turn_on_led (samples : list Z) (m : machine) :
  no_turn_on samples m = true ->
  led (run samples m) = Nat.iter (length samples) ramp (led m).
Proof.
  revert m. induction samples as [|p l IH]; intros m Hq.
  - reflexivity.
  - cbn [no_turn_on] in Hq. apply andb_true_iff in Hq. destruct Hq as [Hp Hq].
    apply negb_true_iff in Hp.
    rewrite run_cons, (IH _ Hq), tick_led, Hp. cbn [length].
    now rewrite Nat.iter_succ_r.
Qed.

(** Inside the band the ramp comes back to where it was after 490 ticks:
    244 steps up, one tick to turn round at 254, 244 steps down, one tick to
    turn round at 10. *)
Lemma ramp_returns_490 :
  forallb (ramp_returns 490) (map Z.of_nat (seq 0 255)) = true.
Proof. vm_compute. reflexivity. Qed.

Lemma ramp_period (b u : Z) :
  10 <= b <= 254 -> u = 0 \/ u = 1 -> Nat.iter 490 ramp (b, u) = (b, u).
Proof.
  intros Hb Hu.
  assert (H : ramp_returns 490 b = true)
    by (apply (below_forallb _ 255 ramp_returns_490); lia).
  apply orb_true_iff in H. destruct H as [H|H].
  - apply Z.ltb_lt in H. lia.
  - apply andb_true_iff in H. destruct H as [H0 H1].
    destruct Hu; subst u; now apply led_eqb_eq.
Qed.

Lemma ramp_cases (b u : Z) :
  0 <= b <= 254 -> u = 0 \/ u = 1 ->
  (ramp (b, u) = (b + 1, 1) /\ u = 1 /\ b < 254) \/
  (ramp (b, u) = (254, 0) /\ u = 1 /\ b = 254) \/
  (ramp (b, u) = (b - 1, 0) /\ u = 0 /\ 10 < b) \/
  (ramp (b, u) = (b, 1) /\ u = 0 /\ b <= 10).
Proof.
  intros Hb Hu. unfold ramp, led, shimmer.
  cbn [brightness_control brighness_up fst snd].
  destruct Hu; subst u; cbn [Z.eqb negb].
  - destruct (Z.ltb_spec 10 b);
      cbn [brightness_control brighness_up put_brightness_control
           put_brighness_up]; rewrite ?to_ushort_small by lia; auto 10.
  - destruct (Z.ltb_spec b 254);
      cbn [brightness_control brighness_up put_brightness_control
           put_brighness_up]; rewrite ?to_ushort_small by lia; auto.
    right; left. repeat split; auto; f_equal; lia.
Qed.

(** C6, as the code has it.  Between ticks the brightness is within
    [0, 254]: it starts at 0 and a rising edge that turns the pedal on sets
    it back to 0.  A tick that is not such an edge keeps a brightness of at
    least 10 at least 10.  A tick changes the direction of the ramp only
    when it leaves the brightness at 254 (from rising to falling) or at most
    10 (from falling to rising).  Along a run without such an edge, started
    with the brightness at least 10, brightness and direction after 490
    ticks, which is [2 * (254 - 10) + 2], are what they were. *)
Theorem brightness_triangle (m : machine) (PINB : Z) (samples : list Z) :
  reachable m ->
  0 <= brightness_control m <= 254 /\
  (turn_on_edge PINB m = false -> 10 <= brightness_control m ->
   10 <= brightness_control (TIMER1_COMPA_vect PINB m)) /\
  (brighness_up (TIMER1_COMPA_vect PINB m) <> brighness_up m ->
   (brighness_up m = 1 /\ brightness_control (TIMER1_COMPA_vect PINB m) = 254) \/
   (brighness_up m = 0 /\ brightness_control (TIMER1_COMPA_vect PINB m) <= 10)) /\
  (no_turn_on samples m = true -> 10 <= brightness_control m ->
   length samples = 490%nat ->
   brightness_control (run samples m) = brightness_control m /\
   brighness_up (run samples m) = brighness_up m).
Proof.
  intros Hm. apply reachable_Inv in Hm.
  destruct Hm as (_ & _ & _ & Hb & Hu & _).
  pose proof (tick_led PINB m) as Ht. unfold led in Ht.
  split; [exact Hb|]. split; [|split].
  - intros Hq Hband. rewrite Hq in Ht.
    destruct (ramp_cases _ _ Hb Hu) as [H|[H|[H|H]]];
      destruct H as (E & _ & ?); rewrite E in Ht; inversion Ht; lia.
  - intros Hflip.
    destruct (turn_on_edge PINB m).
    + destruct (ramp_cases 0 (brighness_up m)) as [H|[H|[H|H]]];
        try lia; try exact Hu;
        destruct H as (E & ? & ?); rewrite E in Ht; inversion Ht; lia.
    + destruct (ramp_cases _ _ Hb Hu) as [H|[H|[H|H]]];
        destruct H as (E & ? & ?); rewrite E in Ht; inversion Ht; lia.
  - intros Hq Hband Hlen.
    pose proof (no_turn_on_led samples m Hq) as Hl.
    rewrite Hlen in Hl. unfold led in Hl.
    rewrite ramp_period in Hl by (auto; lia).
    inversion Hl. auto.
Qed.

Lemma brightness_triangle_witness :
  let m := run (repeat released 10) startup in
  let samples := repeat released 490 in
  reachable m /\ brightness_control m = 10 /\
  brightness_control (TIMER1_COMPA_vect released m) = 11 /\
  brightness_control (run samples m) = 10 /\
  brighness_up (run samples m) = 1.
Proof.
  intros m samples.
  assert (Hm : reachable m) by (apply reachable_run, reachable_startup).
  assert (Hb : brightness_control m = 10) by reflexivity.
  destruct (brightness_triangle m released samples Hm) as (_ & _ & _ & Hp).
  destruct Hp as [Hp1 Hp2];
    [vm_compute; reflexivity | rewrite Hb; lia | reflexivity |].
  split; [exact Hm|]. split; [exact Hb|]. split; [reflexivity|].
  split; [rewrite Hp1 | rewrite Hp2]; reflexivity.
Defined.

(** From startup the brightness is 1 after the first tick, below 10; it is
    10 after 10 released ticks and 11, not 10, a further
    [2 * (254 - 10) = 488] released ticks later. *)
Lemma brightness_below_band_and_period :
  ~ (10 <= brightness_control (run [released] startup) <= 254) /\
  brightness_control (run (repeat released 10) startup) = 10 /\
  brightness_control (run (repeat released (10 + 488)) startup) = 11 /\
  brightness_control (run (repeat released (10 + 490)) startup) = 10.
Proof.
  split; [vm_compute; intros [H _]; apply H; reflexivity|].
  vm_compute. repeat split; reflexivity.
Qed.

(** C7, as the code has it.  The next brightness and direction are the ramp
    step of the current ones, taken from brightness 0 when the tick is a
    rising edge that turns the pedal on.  Two ticks that start from the same
    brightness and direction and agree on being such an edge or not end with
    the same brightness and direction, whatever the other fields and the
    samples are. *)
Theorem ramp_independent (m1 m2 : machine) (PINB1 PINB2 : Z) :
  brightness_control m1 = brightness_control m2 ->
  brighness_up m1 = brighness_up m2 ->
  turn_on_edge PINB1 m1 = turn_on_edge PINB2 m2 ->
  brightness_control (TIMER1_COMPA_vect PINB1 m1) =
    brightness_control (TIMER1_COMPA_vect PINB2 m2) /\
  brighness_up (TIMER1_COMPA_vect PINB1 m1) =
    brighness_up (TIMER1_COMPA_vect PINB2 m2).
Proof.
  intros Hb Hu Ht.
  pose proof (tick_led PINB1 m1) as H1.
  pose proof (tick_led PINB2 m2) as H2.
  unfold led in H1, H2. rewrite Ht, Hb, Hu in H1. rewrite <- H2 in H1.
  inversion H1. auto.
Qed.

Lemma ramp_independent_witness :
  let m1 := run (repeat released 100) startup in
  let m2 := run (pressed :: repeat pressed 99) startup in
  brightness_control (TIMER1_COMPA_vect released m1) =
    brightness_control (TIMER1_COMPA_vect pressed m2) /\
  brighness_up (TIMER1_COMPA_vect released m1) =
    brighness_up (TIMER1_COMPA_vect pressed m2).
Proof.
  intros m1 m2.
  apply (ramp_independent m1 m2 released pressed); reflexivity.
Defined.

(** Two ticks from the same reachable state, brightness 100 and rising: the
    released sample steps the ramp to 101, the pressed sample turns the
    pedal on and leaves the brightness at 1. *)
Lemma ramp_jumps_on_turn_on :
  let m := run (repeat released 100) startup in
  reachable m /\
  brightness_control m = 100 /\ brighness_up m = 1 /\
  brightness_control (TIMER1_COMPA_vect released m) = 101 /\
  brightness_control (TIMER1_COMPA_vect pressed m) = 1 /\
  brightness_control (TIMER1_COMPA_vect released m) <>
    brightness_control (TIMER1_COMPA_vect pressed m).
Proof.
  intros m. split; [apply reachable_run, reachable_startup|].
  vm_compute. repeat split; try reflexivity. discriminate.
Qed.

(** ** Further properties of the handler *)

(** *** Reading the switch *)

Lemma switch_down_testbit (PINB : Z) :
  switch_down PINB = negb (Z.testbit PINB PINB2).
Proof.
  unfold switch_down, PINB2.
  destruct (Z.testbit PINB 2) eqn:E; cbn [negb].
  - apply Z.eqb_neq. intros H.
    assert (Hb : Z.testbit (Z.land PINB (Z.shiftl 1 2)) 2 = true).
    { rewrite Z.land_spec, E, testbit_one_shifted by lia. reflexivity. }
    rewrite H in Hb. rewrite Z.bits_0 in Hb. discriminate.
  - apply Z.eqb_eq. apply Z.bits_inj'. intros n Hn.
    rewrite Z.land_spec, Z.bits_0, testbit_one_shifted by lia.
    destruct (Z.eqb_spec n 2) as [->|_]; [now rewrite E | apply andb_false_r].
Qed.

(** The handler looks at bit [PINB2] of the port and at nothing else: two
    port values that agree on that bit give the same tick. *)
Theorem other_pins_ignored (PINB PINB' : Z) (m : machine) :
  Z.testbit PINB PINB2 = Z.testbit PINB' PINB2 ->
  TIMER1_COMPA_vect PINB m = TIMER1_COMPA_vect PINB' m.
Proof.
  intros H. unfold TIMER1_COMPA_vect, switch_fsm.
  now rewrite !switch_down_testbit, H.
Qed.

Lemma other_pins_ignored_witness :
  TIMER1_COMPA_vect 0 startup = TIMER1_COMPA_vect 251 startup.
Proof. apply other_pins_ignored. reflexivity. Defined.

(** After two or more ticks the switch state bit is the last sample and the
    last state bit the sample before it: the handler keeps the raw samples,
    it does not filter them. *)
Theorem switch_bits_are_last_samples
  (l : list Z) (PINB PINB' : Z) (m : machine) :
  flag (state (run (l ++ [PINB; PINB']) m)) SS = switch_down PINB' /\
  flag (state (run (l ++ [PINB; PINB']) m)) LS = switch_down PINB.
Proof.
  change [PINB; PINB'] with ([PINB] ++ [PINB']).
  rewrite app_assoc, run_snoc, tick_SS, tick_LS, run_snoc, tick_SS. auto.
Qed.

(** *** Pedal and pulse *)

(** The pedal bit changes on a tick exactly when the FSM block of that tick
    arms the pulse: on a rising edge, and on the release of a hold whose
    timer is due while the pedal is on. *)
Theorem pedal_toggles_iff_armed (PINB : Z) (m : machine) :
  flag (state (TIMER1_COMPA_vect PINB m)) PO =
    xorb (flag (state m) PO) (arms PINB m) /\
  flag (state (after_fsm PINB m)) SP = flag (state m) SP || arms PINB m.
Proof.
  split; [|apply after_fsm_SP].
  rewrite tick_PO. unfold arms, momentary_release.
  destruct (rising_edge PINB m), (falling_edge PINB m),
    (flag (state m) PO), (timer_state_due m); reflexivity.
Qed.

(** A whole gesture from a released switch: a pressed sample, any number of
    further pressed samples, a released sample.  With the pedal on at the
    start the gesture turns it off, however long the hold.  With the pedal
    off the gesture leaves it on when the release comes at most
    [MOMENTARY_DELAY] ticks after the press tick (a tap), and off again when
    it comes later (a momentary hold). *)
Theorem gesture_outcome
  (m : machine) (press : Z) (hold : list Z) (release : Z) :
  flag (state m) SS = false ->
  switch_down press = true -> all_down hold -> switch_down release = false ->
  flag (state (run (press :: hold ++ [release]) m)) PO =
    negb (flag (state m) PO) && (Z.of_nat (length hold) <? MOMENTARY_DELAY) /\
  flag (state (run (press :: hold ++ [release]) m)) SS = false.
Proof.
  intros Hss Hp Hh Hr.
  change (press :: hold ++ [release]) with ((press :: hold) ++ [release]).
  rewrite run_snoc, run_cons, tick_SS, tick_PO.
  split; [|exact Hr].
  assert (Hrise : rising_edge press m = true)
    by (unfold rising_edge; now rewrite Hp, Hss).
  assert (Hss1 : flag (state (TIMER1_COMPA_vect press m)) SS = true)
    by now rewrite tick_SS.
  assert (Hpo1 : flag (state (TIMER1_COMPA_vect press m)) PO =
                 negb (flag (state m) PO)) by now rewrite tick_PO, Hrise.
  set (m1 := TIMER1_COMPA_vect press m) in *.
  destruct (hold_keeps_pedal hold m1 Hh Hss1) as (Hss2 & Hpo2).
  unfold rising_edge, momentary_release, falling_edge.
  rewrite Hr, Hss2, Hpo2, Hpo1. cbn [negb andb].
  destruct (flag (state m) PO) eqn:Hpo; cbn [negb andb]; [reflexivity|].
  destruct (press_turns_on press m Hp Hss Hpo) as (_ & _ & _ & C & D).
  fold m1 in C, D. rewrite (hold_due hold m1 Hh Hss1 C D).
  destruct (Z.leb_spec MOMENTARY_DELAY (Z.of_nat (length hold)));
    symmetry; [apply Z.ltb_ge | apply Z.ltb_lt]; lia.
Qed.

Lemma gesture_outcome_witness :
  flag (state (run (pressed :: repeat pressed 5 ++ [released]) startup)) PO
  = true.
Proof.
  assert (Hh : all_down (repeat pressed 5)) by (repeat constructor).
  destruct (gesture_outcome startup pressed (repeat pressed 5) released
              eq_refl eq_refl Hh eq_refl) as [H _].
  rewrite H. reflexivity.
Defined.

(** The pulse flag is never set for more than [LATCHING_TIME] ticks in a
    row: whatever the next [LATCHING_TIME] samples are, the flag and the
    counter are clear now or after one of those ticks. *)
Theorem pulse_never_longer (m : machine) (l : list Z) :
  reachable m -> Z.of_nat (length l) = LATCHING_TIME ->
  exists k : nat,
    (k <= length l)%nat /\
    flag (state (run (firstn k l) m)) SP = false /\
    pulse_counter (run (firstn k l) m) = 0.
Proof.
  intros Hm Hlen. apply reachable_Inv in Hm.
  destruct Hm as (_ & _ & Hpc & _ & _ & Hsp).
  unfold LATCHING_TIME in *.
  destruct (flag (state m) SP) eqn:E.
  - symmetry in Hsp. apply negb_true_iff, Z.eqb_neq in Hsp.
    exists (Z.to_nat (4 - pulse_counter m)). split; [lia|].
    apply pulse_clears; [exact E | unfold LATCHING_TIME; lia |].
    rewrite length_firstn. unfold LATCHING_TIME. lia.
  - symmetry in Hsp. apply negb_false_iff, Z.eqb_eq in Hsp.
    exists 0%nat. cbn [firstn]. rewrite run_nil. split; [lia | auto].
Qed.

Lemma pulse_never_longer_witness :
  exists k : nat,
    (k <= 3)%nat /\
    flag (state (run (firstn k [pressed; released; pressed])
                     (run [pressed] startup))) SP = false /\
    pulse_counter (run (firstn k [pressed; released; pressed])
                       (run [pressed] startup)) = 0.
Proof.
  apply (pulse_never_longer (run [pressed] startup)
           [pressed; released; pressed]).
  - apply reachable_run, reachable_startup.
  - reflexivity.
Defined.

(** *** The momentary counter *)

(** Along a run in which no tick is a rising edge that turns the pedal on,
    the momentary counter counts modulo [MOMENTARY_DELAY + 1]. *)
Lemma intr_count_run (l : list Z) (m : machine) :
  Inv m -> no_turn_on l m = true ->
  intr_count (run l m) =
  (intr_count m + Z.of_nat (length l)) mod (MOMENTARY_DELAY + 1).
Proof.
  revert m. induction l as [|p l IH]; intros m Hinv Hq.
  - destruct Hinv as (_ & Hic & _). rewrite run_nil. cbn [length].
    unfold MOMENTARY_DELAY in *. rewrite Z.mod_small; lia.
  - cbn [no_turn_on] in Hq. apply andb_true_iff in Hq. destruct Hq as [Hp Hq].
    apply negb_true_iff in Hp.
    rewrite run_cons, (IH _ (Inv_tick p m Hinv) Hq), tick_intr_count, Hp.
    destruct Hinv as (_ & Hic & _). unfold MOMENTARY_DELAY in *.
    cbn [length]. rewrite Nat2Z.inj_succ.
    destruct (Z.eqb_spec (intr_count m) 400) as [E|E].
    + rewrite E. replace (400 + Z.succ (Z.of_nat (length l)))
        with (Z.of_nat (length l) + 1 * (400 + 1)) by lia.
      now rewrite Z.mod_add by lia.
    + rewrite to_int_small by lia. f_equal. lia.
Qed.

Theorem intr_count_modulo (l : list Z) (m : machine) :
  reachable m -> no_turn_on l m = true ->
  intr_count (run l m) =
  (intr_count m + Z.of_nat (length l)) mod (MOMENTARY_DELAY + 1).
Proof. intros Hm. apply intr_count_run. now apply reachable_Inv. Qed.

Lemma intr_count_modulo_witness :
  intr_count (run (repeat released 1000) startup) = 1000 mod 401.
Proof.
  apply (intr_count_modulo (repeat released 1000) startup reachable_startup).
  vm_compute. reflexivity.
Defined.

(** *** Steady input *)




(** *** The slow start of the blinky LED *)

Lemma ramp_climbs (n : nat) (b : Z) :
  0 <= b -> b + Z.of_nat n <= 254 ->
  Nat.iter n ramp (b, 1) = (b + Z.of_nat n, 1).
Proof.
  intros H0. induction n as [|n IH]; intros Hn.
  - cbn [Nat.iter nat_rect]. f_equal. lia.
  - rewrite Nat.iter_succ, IH by lia.
    destruct (ramp_cases (b + Z.of_nat n) 1) as [H|[H|[H|H]]];
      try lia; try (now right);
      destruct H as (E & ? & ?); try lia.
    rewrite E. f_equal. lia.
Qed.

Lemma hold_no_turn_on (l : list Z) (m : machine) :
  all_down l -> flag (state m) SS = true -> no_turn_on l m = true.
Proof.
  intros Hl. revert m. induction Hl as [|p l Hp _ IH]; intros m Hss.
  - reflexivity.
  - cbn [no_turn_on].
    assert (He : switch_down p = flag (state m) SS) by congruence.
    destruct (no_edge p m He) as (_ & _ & -> & _).
    cbn [negb andb]. apply IH. now rewrite tick_SS.
Qed.

(** The press that turns the pedal on restarts the LED ramp from dark:
    [n] ticks into the hold the brightness is [n] if the ramp was falling at
    the press and [n + 1] if it was rising, and the ramp is rising, up to
    the top of the ramp at 254. *)
Theorem slow_start (m : machine) (press : Z) (hold : list Z) :
  reachable m ->
  flag (state m) SS = false -> flag (state m) PO = false ->
  switch_down press = true -> all_down hold ->
  Z.of_nat (length hold) + brighness_up m <= 254 ->
  brightness_control (run (press :: hold) m) =
    Z.of_nat (length hold) + brighness_up m /\
  brighness_up (run (press :: hold) m) = 1.
Proof.
  intros Hm Hss Hpo Hp Hh Hlen. apply reachable_Inv in Hm.
  destruct Hm as (_ & _ & _ & _ & Hu & _).
  destruct (press_turns_on press m Hp Hss Hpo) as (Ht & Hss1 & _).
  pose proof (tick_led press m) as H1. rewrite Ht in H1.
  assert (H1' : led (TIMER1_COMPA_vect press m) = (brighness_up m, 1)).
  { rewrite H1.
    destruct (ramp_cases 0 (brighness_up m)) as [H|[H|[H|H]]];
      try lia; try exact Hu; destruct H as (E & ? & ?); try lia;
      rewrite E; f_equal; lia. }
  pose proof (no_turn_on_led hold _ (hold_no_turn_on hold _ Hh Hss1)) as H2.
  rewrite H1', ramp_climbs in H2 by lia.
  rewrite run_cons. unfold led in H2. inversion H2. split; [lia | reflexivity].
Qed.

Lemma slow_start_witness :
  brightness_control (run (pressed :: repeat pressed 20) startup) = 21 /\
  brighness_up (run (pressed :: repeat pressed 20) startup) = 1.
Proof.
  assert (Hh : all_down (repeat pressed 20)) by (repeat constructor).
  apply (slow_start startup pressed (repeat pressed 20) reachable_startup
           eq_refl eq_refl eq_refl Hh).
  vm_compute. discriminate.
Defined.

(** *** Ranges *)

(** Between ticks only the five flag bits of [state] are ever set, every
    counter is within its bounds, and the pulse flag is set exactly when the
    pulse counter is not zero.  So no increment of the handler wraps
    around. *)
Theorem counters_in_range (m : machine) :
  reachable m ->
  0 <= state m < 32 /\
  0 <= intr_count m <= MOMENTARY_DELAY /\
  0 <= pulse_counter m <= LATCHING_TIME /\
  0 <= brightness_control m <= 254 /\
  (brighness_up m = 0 \/ brighness_up m = 1) /\
  flag (state m) SP = negb (pulse_counter m =? 0) /\
  to_int (intr_count m + 1) = intr_count m + 1 /\
  to_int (pulse_counter m + 1) = pulse_counter m + 1 /\
  to_ushort (brightness_control m + 1) = brightness_control m + 1 /\
  (10 < brightness_control m ->
   to_ushort (brightness_control m - 1) = brightness_control m - 1).
Proof.
  intros Hm. apply reachable_Inv in Hm.
  destruct Hm as (Hst & Hic & Hpc & Hb & Hu & Hsp).
  unfold MOMENTARY_DELAY, LATCHING_TIME in *.
  repeat split; try lia; try exact Hu; try exact Hsp;
    try (apply to_int_small; lia); try (apply to_ushort_small; lia).
  intros Hgt. apply to_ushort_small. lia.
Qed.

Lemma counters_in_range_witness :
  0 <= intr_count (run [pressed; released] startup) <= MOMENTARY_DELAY.
Proof.
  pose proof (counters_in_range (run [pressed; released] startup)
                (reachable_run _ _ reachable_startup)) as (_ & H & _).
  exact H.
Defined.

(** ** Further properties of the main loop *)

Lemma testbit_to_char_high (x j : Z) :
  8 <= j -> Z.testbit (to_char x) j = false.
Proof.
  intros Hj. unfold to_char. change 256 with (2 ^ 8).
  apply Z.mod_pow2_bits_high. lia.
Qed.

(** The bits of [PORTB] after one iteration, pin by pin. *)
Lemma main_loop_pin (m : machine) (io : ports) (k : Z) :
  0 <= k < 8 ->
  pin (main_loop m io) k =
  if k =? PB4 then negb (pulse_counter m =? 0)
  else if (k =? PB3) || (k =? PB1) then flag (state m) PO
  else if k =? PB5 then negb (flag (state m) PO)
  else pin io k.
Proof.
  intros Hk. unfold main_loop, pin.
  destruct (flag (state m) PO), (flag (state m) SS),
    (negb (pulse_counter m =? 0));
    cbn [PORTB OCR0A upd_PORTB put_OCR0A];
    repeat first
      [ rewrite testbit_set_bit by flag_position
      | rewrite testbit_clear_bit by flag_position
      | rewrite pin_or_mask by flag_position ];
    unfold PB1, PB3, PB4, PB5;
    destruct (k =? 4) eqn:E4, (k =? 3) eqn:E3, (k =? 1) eqn:E1,
      (k =? 5) eqn:E5; cbn [orb andb negb];
    rewrite ?orb_true_r, ?orb_false_r, ?andb_true_r, ?andb_false_r;
    try reflexivity; lia.
Qed.

Lemma main_loop_pin_high (m : machine) (io : ports) (k : Z) :
  8 <= k -> pin (main_loop m io) k = false.
Proof.
  intros Hk. unfold main_loop, pin.
  destruct (negb (pulse_counter m =? 0)); cbn [PORTB upd_PORTB];
    unfold set_bit, clear_bit; now apply testbit_to_char_high.
Qed.

Lemma main_loop_OCR0A (m : machine) (io : ports) :
  OCR0A (main_loop m io) =
  if flag (state m) PO
  then if flag (state m) SS then to_char (brightness_control m) else 255
  else 0.
Proof.
  unfold main_loop.
  destruct (flag (state m) PO), (flag (state m) SS),
    (negb (pulse_counter m =? 0)); reflexivity.
Qed.

(** The loop drives [PB1], [PB3], [PB4] and [PB5] and leaves every other
    pin of port B as it found it, among them the pull-up of the switch input
    on [PB2] and the PWM pin [PB0]. *)
Theorem main_loop_keeps_other_pins (m : machine) (io : ports) (k : Z) :
  0 <= k < 8 -> k <> PB1 -> k <> PB3 -> k <> PB4 -> k <> PB5 ->
  pin (main_loop m io) k = pin io k.
Proof.
  intros Hk H1 H3 H4 H5. rewrite main_loop_pin by exact Hk.
  apply Z.eqb_neq in H1, H3, H4, H5. now rewrite H1, H3, H4, H5.
Qed.

Lemma main_loop_keeps_other_pins_witness :
  pin (main_loop (run [pressed] startup) (Ports 4 0)) PB2 = true.
Proof.
  rewrite (main_loop_keeps_other_pins (run [pressed] startup) (Ports 4 0) PB2);
    [reflexivity | vm_compute; intuition discriminate | discriminate ..].
Defined.

(** Running the loop body again on the same globals changes nothing: the
    loop may spin any number of times between two ticks. *)
Theorem main_loop_idempotent (m : machine) (io : ports) :
  main_loop m (main_loop m io) = main_loop m io.
Proof.
  assert (HO : OCR0A (main_loop m (main_loop m io)) = OCR0A (main_loop m io))
    by now rewrite !main_loop_OCR0A.
  assert (HP : PORTB (main_loop m (main_loop m io)) = PORTB (main_loop m io)).
  { apply Z.bits_inj'. intros k Hk.
    change (pin (main_loop m (main_loop m io)) k = pin (main_loop m io) k).
    destruct (Z.ltb_spec k 8).
    - rewrite (main_loop_pin m (main_loop m io)) by lia.
      rewrite (main_loop_pin m io) by lia.
      destruct (k =? PB4), ((k =? PB3) || (k =? PB1)), (k =? PB5); reflexivity.
    - now rewrite !main_loop_pin_high by lia. }
  destruct (main_loop m (main_loop m io)), (main_loop m io).
  cbn [PORTB OCR0A] in *. congruence.
Qed.

Lemma loop_keeps_pullup (seen : list machine) (io : ports) :
  pin io PB2 = true -> pin (loop seen io) PB2 = true.
Proof.
  revert io. induction seen as [|m seen IH]; intros io H; [exact H|].
  cbn [loop fold_left]. apply IH.
  rewrite main_loop_pin by (unfold PB2; lia). exact H.
Qed.

(** [main] switches the pull-up of the switch input on before it enters the
    loop, and the loop never switches it off, whatever the port held at
    reset and whatever globals the iterations find. *)
Theorem pullup_stays_on (seen : list machine) (io : ports) :
  pin (loop seen (main_setup io)) PB2 = true /\
  OCR0A (main_setup io) = 0.
Proof.
  split; [|reflexivity].
  apply loop_keeps_pullup. unfold main_setup, pin.
  cbn [PORTB upd_PORTB put_OCR0A].
  rewrite testbit_set_bit by (unfold PB2; lia). reflexivity.
Qed.
